(** * theimagingsource.py: the DMK x3GP031 camera session, embedded in Rocq

    The Python module wraps the vendor library [tisgrabber_x64] through
    ctypes.  The embedding follows the module top to bottom:

    - Python data (bytes, str, floats, numpy arrays, exceptions);
    - the driver, an opaque collaborator, as an oracle that answers each
      entry point from the history of calls made so far, together with
      the trace of calls the wrapper issues;
    - the class [DMK_x3GP031], one definition per method, in a state and
      exception monad in which a raised exception keeps every mutation
      made before it (as in Python);
    - the properties of the specification, proved about those methods. *)

From Stdlib Require Import ZArith List String Ascii Bool Lia RelationClasses.
From Stdlib Require Import Floats.SpecFloat.
Import ListNotations.

Local Open Scope Z_scope.
Local Open Scope string_scope.
Local Open Scope list_scope.

Set Implicit Arguments.

(* ===================================================================== *)
(** ** Python bytes and str *)
(* ===================================================================== *)

(** A [bytes] object: a sequence of 8-bit characters. *)
Definition bytes := string.

(** A [str] object: a sequence of Unicode code points. *)
Definition str := list N.

Definition code (c : ascii) : N := N_of_ascii c.

Definition str_of_string (s : string) : str := map code (list_ascii_of_string s).

(** [bytes.split()] with no argument splits on runs of ASCII whitespace:
    space, tab, newline, carriage return, vertical tab, form feed. *)
Definition is_space (c : ascii) : bool :=
  let n := code c in
  (N.eqb n 32 || (N.leb 9 n && N.leb n 13))%bool.

Fixpoint split_from (s : string) (tok : option string) : list string :=
  match s with
  | EmptyString => match tok with Some t => [t] | None => [] end
  | String c rest =>
      if is_space c then
        match tok with
        | Some t => t :: split_from rest None
        | None => split_from rest None
        end
      else
        match tok with
        | Some t => split_from rest (Some (String.append t (String c EmptyString)))
        | None => split_from rest (Some (String c EmptyString))
        end
  end.

Definition bytes_split (s : bytes) : list bytes := split_from s None.

(** [b.startswith(p)] and [s.endswith(p)]. *)
Definition startswith (b p : string) : bool := String.prefix p b.

Definition endswith (s p : string) : bool :=
  let n := String.length s in
  let k := String.length p in
  (Nat.leb k n && String.eqb (substring (n - k) k s) p)%bool.

(** [x in xs] for a tuple or list of bytes objects. *)
Definition bytes_in (x : bytes) (xs : list bytes) : bool :=
  existsb (String.eqb x) xs.

(** [x in xs] where the list may hold [None] next to bytes objects (a
    [c_char_p] result is [None] for a NULL pointer); [None] never equals
    a bytes object. *)
Definition bytes_in_opt (x : bytes) (xs : list (option bytes)) : bool :=
  existsb (fun o => match o with Some y => String.eqb x y | None => false end) xs.

(** [b.decode('ascii')]: fails on any byte above 127. *)
Definition decode_ascii (b : bytes) : option str :=
  let cs := map code (list_ascii_of_string b) in
  if forallb (fun n => N.ltb n 128) cs then Some cs else None.

(** [bytes(s, encoding='ascii')]: fails on any code point above 127. *)
Definition encode_ascii (s : str) : option bytes :=
  if forallb (fun n => N.ltb n 128) s
  then Some (string_of_list_ascii (map ascii_of_N s))
  else None.

(** [b.decode()]: strict UTF-8.  The decoder accepts the shortest
    encodings of U+0000..U+10FFFF without the surrogates. *)
Definition cont (n : N) : bool := (N.leb 128 n && N.leb n 191)%bool.
Definition between (lo hi n : N) : bool := (N.leb lo n && N.leb n hi)%bool.

Fixpoint utf8_from (fuel : nat) (bs : list N) : option str :=
  match fuel with
  | O => match bs with [] => Some [] | _ => None end
  | S fuel' =>
      match bs with
      | [] => Some []
      | a :: r =>
          if N.ltb a 128 then option_map (cons a) (utf8_from fuel' r)
          else if between 194 223 a then
            match r with
            | b :: r' =>
                if cont b
                then option_map (cons ((a - 192) * 64 + (b - 128))%N)
                                (utf8_from fuel' r')
                else None
            | _ => None
            end
          else if between 224 239 a then
            match r with
            | b :: c :: r' =>
                if (cont b && cont c
                    && (negb (N.eqb a 224) || N.leb 160 b)
                    && (negb (N.eqb a 237) || N.leb b 159))%bool
                then option_map
                       (cons ((a - 224) * 4096 + (b - 128) * 64 + (c - 128))%N)
                       (utf8_from fuel' r')
                else None
            | _ => None
            end
          else if between 240 244 a then
            match r with
            | b :: c :: d :: r' =>
                if (cont b && cont c && cont d
                    && (negb (N.eqb a 240) || N.leb 144 b)
                    && (negb (N.eqb a 244) || N.leb b 143))%bool
                then option_map
                       (cons ((a - 240) * 262144 + (b - 128) * 4096
                              + (c - 128) * 64 + (d - 128))%N)
                       (utf8_from fuel' r')
                else None
            | _ => None
            end
          else None
      end
  end.

Definition decode_utf8 (b : bytes) : option str :=
  let bs := map code (list_ascii_of_string b) in
  utf8_from (List.length bs) bs.

(** The newline character of the literal ["...***\n"]. *)
Definition nl : string := String (ascii_of_nat 10) EmptyString.

(* ===================================================================== *)
(** ** ctypes integers *)
(* ===================================================================== *)

(** [c_int] and, on Windows (the module loads the library through
    [windll]), [c_long] are 32-bit two's complement: a value stored in
    one wraps around. *)
Definition wrap32 (z : Z) : Z := (z + 2 ^ 31) mod 2 ^ 32 - 2 ^ 31.
Definition c_int (z : Z) : Z := wrap32 z.
Definition c_long (z : Z) : Z := wrap32 z.
Definition c_uint (z : Z) : Z := z mod 2 ^ 32.

(* ===================================================================== *)
(** ** Python floats *)
(* ===================================================================== *)

(** A Python float is an IEEE 754 binary64 number. *)
Definition prec : Z := 53.
Definition emax : Z := 1024.
Definition float := spec_float.

(** Conversion of an int to a float (round to nearest even). *)
Definition float_of_int (z : Z) : float := binary_normalize prec emax z 0 false.

Definition fmul (x y : float) : float := SFmul prec emax x y.
Definition fdiv (x y : float) : float := SFdiv prec emax x y.

(** The literals [1e6], [1e-6] and [1e-3]: the doubles nearest to the
    decimal values ([1e-6] and [1e-3] are correctly rounded quotients of
    exactly representable integers). *)
Definition f_1e6 : float := Eval vm_compute in float_of_int 1000000.
Definition f_1em6 : float :=
  Eval vm_compute in fdiv (float_of_int 1) (float_of_int 1000000).
Definition f_1em3 : float :=
  Eval vm_compute in fdiv (float_of_int 1) (float_of_int 1000).

(** [int(x)] truncates toward zero; it raises [ValueError] on a NaN and
    [OverflowError] on an infinity. *)
Inductive IntOfFloat :=
| IntOk (z : Z)
| IntNaN
| IntInf.

Definition int_of_float (x : float) : IntOfFloat :=
  match x with
  | S754_zero _ => IntOk 0
  | S754_infinity _ => IntInf
  | S754_nan => IntNaN
  | S754_finite s m e =>
      let mag :=
        match e with
        | Z0 => Zpos m
        | Zpos p => Zpos m * 2 ^ Zpos p
        | Zneg p => Zpos m / 2 ^ Zpos p
        end in
      IntOk (if s then - mag else mag)
  end.

(* ===================================================================== *)
(** ** numpy arrays *)
(* ===================================================================== *)

Inductive DType :=
| uint8
| uint16
| other_dtype (name : string).

Definition dtype_eqb (a b : DType) : bool :=
  match a, b with
  | uint8, uint8 => true
  | uint16, uint16 => true
  | other_dtype x, other_dtype y => String.eqb x y
  | _, _ => false
  end.

(** An array: its shape, its sample type and its samples in row-major
    order. *)
Record ndarray := mk_ndarray {
  shape : list Z;
  dtype : DType;
  data : list Z
}.

Fixpoint shape_eqb (a b : list Z) : bool :=
  match a, b with
  | [], [] => true
  | x :: a', y :: b' => (Z.eqb x y && shape_eqb a' b')%bool
  | _, _ => false
  end.

(** [np.right_shift(image, 4)] on unsigned samples. *)
Definition right_shift (a : ndarray) (k : Z) : ndarray :=
  mk_ndarray (shape a) (dtype a) (map (fun x => Z.shiftr x k) (data a)).

(** [image.view(dtype=np.uint16)] on a flat array of bytes: consecutive
    byte pairs, low byte first (the library is an x64 Windows DLL). *)
Fixpoint pair_up (bs : list Z) : list Z :=
  match bs with
  | lo :: hi :: rest => (lo + 256 * hi) :: pair_up rest
  | _ => []
  end.

(** [image.reshape(height, width)]: the element count must agree.
    ([-1] asks numpy to infer a dimension; the session never holds one
    there, see [_snapped_image_as_numpy_array].) *)
Definition reshape2 (a : ndarray) (h w : Z) : option ndarray :=
  if (Z.leb 0 h && Z.leb 0 w && Z.eqb (h * w) (Z.of_nat (List.length (data a))))%bool
  then Some (mk_ndarray [h; w] (dtype a) (data a))
  else None.

(* ===================================================================== *)
(** ** Python values, printed output and exceptions *)
(* ===================================================================== *)

(** The values that the module prints, formats or returns. *)
Inductive PyVal :=
| VNone
| VInt (z : Z)
| VFloat (f : float)
| VStr (s : string)
| VText (s : str)                      (* a decoded bytes object *)
| VBytes (b : bytes)
| VArray (a : ndarray)
| VFormat (template : string) (arg : PyVal)   (* template % arg *)
| VStrOf (v : PyVal)                   (* str(v) *)
| VGlobal (name : string)              (* the object a module-level name is bound to *)
| VAttr (v : PyVal) (attr : string).   (* v.attr *)

(** One call of [print]: its positional arguments, [sep] and [end]. *)
Record Printed := mk_printed {
  p_args : list PyVal;
  p_sep : string;
  p_end : string
}.

(** Exceptions carry the line of the statement that raised them. *)
Inductive PyExc :=
| UserWarning (line : N) (message : list PyVal)
| AssertionError (line : N)
| NameError (line : N) (name : string)
| AttributeError (line : N) (attr : string)
| UnicodeEncodeError (line : N)
| UnicodeDecodeError (line : N)
| ValueError (line : N)
| OverflowError (line : N).

Definition Result (A : Type) : Type := (PyExc + A)%type.

(* ===================================================================== *)
(** ** The driver *)
(* ===================================================================== *)

Definition Handle := Z.

(** What [IC_GetImagePtr] returns: NULL, or a pointer to driver memory,
    read here as the bytes found at each offset. *)
Definition Pointer := option (nat -> Z).

(** One call of a driver entry point: the arguments as the driver
    receives them, and what it answered ([ret], and the values left in
    the output parameters). *)
Inductive Event :=
| IC_GetDeviceCount (ret : Z)
| IC_GetUniqueNamefromList (d : Z) (ret : option bytes)
| IC_CreateGrabber (ret : Handle)
| IC_OpenDevByUniqueName (h : Handle) (name : bytes) (ret : Z)
| IC_IsDevValid (h : Handle) (ret : Z)
| IC_GetVideoFormatCount (h : Handle) (ret : Z)
| IC_GetVideoFormat (h : Handle) (f : Z) (ret : option bytes)
| IC_SetVideoFormat (h : Handle) (fmt : bytes) (ret : Z)
| IC_GetImageDescription (h : Handle) (ret width height bit_depth color : Z)
| IC_RemoveOverlay (h : Handle) (arg ret : Z)
| IC_GetFormat (h : Handle) (ret : Z)
| IC_SetFormat (h : Handle) (mode ret : Z)
| IC_StartLive (h : Handle) (show ret : Z)
| IC_SnapImage (h : Handle) (timeout ret : Z)
| IC_GetImagePtr (h : Handle) (ret : Pointer)
| IC_StopLive (h : Handle)
| IC_ReleaseGrabber (h : Handle)
| IC_GetCameraProperty (h : Handle) (prop ret value : Z)
| IC_SetCameraProperty (h : Handle) (prop value ret : Z)
| IC_GetAutoCameraProperty (h : Handle) (prop ret value : Z)
| IC_EnableAutoCameraProperty (h : Handle) (prop onoff ret : Z)
| IC_CameraPropertyGetRange (h : Handle) (prop ret lo hi : Z)
| IC_IsTriggerAvailable (h : Handle) (ret : Z)
| IC_EnableTrigger (h : Handle) (enable ret : Z)
| IC_SoftwareTrigger (h : Handle) (ret : Z).

Definition Trace := list Event.

(** The driver is opaque.  It is taken as an oracle: each entry point
    answers from the calls made so far and its arguments.  Any
    behaviour of a sequential driver is one such oracle; the theorems
    quantify over all of them.  The two entry points declared with
    [restype = None] ([IC_StopLive], [IC_ReleaseGrabber]) answer
    nothing. *)
Record Driver := mk_driver {
  r_GetDeviceCount : Trace -> Z;
  r_GetUniqueNamefromList : Trace -> Z -> option bytes;
  r_CreateGrabber : Trace -> Handle;
  r_OpenDevByUniqueName : Trace -> Handle -> bytes -> Z;
  r_IsDevValid : Trace -> Handle -> Z;
  r_GetVideoFormatCount : Trace -> Handle -> Z;
  r_GetVideoFormat : Trace -> Handle -> Z -> option bytes;
  r_SetVideoFormat : Trace -> Handle -> bytes -> Z;
  r_GetImageDescription : Trace -> Handle -> Z * (Z * Z * Z * Z);
  r_RemoveOverlay : Trace -> Handle -> Z -> Z;
  r_GetFormat : Trace -> Handle -> Z;
  r_SetFormat : Trace -> Handle -> Z -> Z;
  r_StartLive : Trace -> Handle -> Z -> Z;
  r_SnapImage : Trace -> Handle -> Z -> Z;
  r_GetImagePtr : Trace -> Handle -> Pointer;
  r_GetCameraProperty : Trace -> Handle -> Z -> Z * Z;
  r_SetCameraProperty : Trace -> Handle -> Z -> Z -> Z;
  r_GetAutoCameraProperty : Trace -> Handle -> Z -> Z * Z;
  r_EnableAutoCameraProperty : Trace -> Handle -> Z -> Z -> Z;
  r_CameraPropertyGetRange : Trace -> Handle -> Z -> Z * (Z * Z);
  r_IsTriggerAvailable : Trace -> Handle -> Z;
  r_EnableTrigger : Trace -> Handle -> Z -> Z;
  r_SoftwareTrigger : Trace -> Handle -> Z
}.

(** A reference to a caller-owned numpy array. *)
Definition Ref := nat.

(** Everything outside the session object that the module reads or
    changes: the calls made to the driver, what was printed, the files
    written through [np_tif], and the arrays of the caller. *)
Record World := mk_world {
  trace : Trace;
  stdout : list Printed;
  files : list (string * ndarray);
  heap : Ref -> ndarray
}.

(* ===================================================================== *)
(** ** State and exceptions *)
(* ===================================================================== *)

(** A computation over a state [S]: it ends with a value or a raised
    exception, and in both cases with the state as it was left. *)
Definition M (S A : Type) : Type := S -> Result A * S.

Definition ret {S A} (a : A) : M S A := fun s => (inr a, s).

Definition raise {S A} (e : PyExc) : M S A := fun s => (inl e, s).

Definition bind {S A B} (c : M S A) (k : A -> M S B) : M S B :=
  fun s =>
    match c s with
    | (inl e, s') => (inl e, s')
    | (inr a, s') => k a s'
    end.

Declare Scope py_scope.
Delimit Scope py_scope with py.
Notation "x <- c ;; k" := (bind c (fun x => k))
  (at level 61, c at next level, right associativity) : py_scope.
Notation "c ;; k" := (bind c (fun _ => k))
  (at level 61, right associativity) : py_scope.
Local Open Scope py_scope.

Definition get {S} : M S S := fun s => (inr s, s).
Definition put {S} (s : S) : M S unit := fun _ => (inr tt, s).
Definition modify {S} (f : S -> S) : M S unit := fun s => (inr tt, f s).

(** [assert cond] at a given line. *)
Definition assert_ {S} (line : N) (cond : bool) : M S unit :=
  if cond then ret tt else raise (AssertionError line).

(** [if cond: body]. *)
Definition when {S} (cond : bool) (body : M S unit) : M S unit :=
  if cond then body else ret tt.

(** [print] with its positional arguments, [sep] and [end]. *)
Definition log_print (p : Printed) (w : World) : World :=
  mk_world (trace w) (stdout w ++ [p]) (files w) (heap w).

Definition print_with (args : list PyVal) (sep end_ : string) : M World unit :=
  modify (log_print (mk_printed args sep end_)).

Definition print (args : list PyVal) : M World unit :=
  print_with args " " nl.

Definition log_call (e : Event) (w : World) : World :=
  mk_world (trace w ++ [e]) (stdout w) (files w) (heap w).

(** [range(n)]. *)
Definition range (n : Z) : list Z := map Z.of_nat (seq 0 (Z.to_nat n)).

(** ** The [dll] object: the entry points under the names the module
    gives them.  Each call asks the oracle, records the event, and hands
    back the answer as ctypes converts it. *)
Module dll.
Section EntryPoints.

Variable drv : Driver.

Definition success : Z := 1.
Definition error : Z := 0.
Definition exposure : Z := 4.

Definition call {A} (answer : Trace -> A) (ev : A -> Event) : M World A :=
  fun w => let a := answer (trace w) in (inr a, log_call (ev a) w).

Definition get_device_count : M World Z :=
  call (fun tr => c_int (r_GetDeviceCount drv tr)) IC_GetDeviceCount.

Definition get_unique_name_from_list (d : Z) : M World (option bytes) :=
  call (fun tr => r_GetUniqueNamefromList drv tr (c_int d))
       (IC_GetUniqueNamefromList (c_int d)).

Definition create_grabber : M World Handle :=
  call (r_CreateGrabber drv) IC_CreateGrabber.

Definition open_by_name (h : Handle) (name : bytes) : M World Z :=
  call (fun tr => c_int (r_OpenDevByUniqueName drv tr h name))
       (IC_OpenDevByUniqueName h name).

Definition is_valid (h : Handle) : M World Z :=
  call (fun tr => c_int (r_IsDevValid drv tr h)) (IC_IsDevValid h).

Definition get_video_format_count (h : Handle) : M World Z :=
  call (fun tr => c_int (r_GetVideoFormatCount drv tr h))
       (IC_GetVideoFormatCount h).

Definition get_video_format (h : Handle) (f : Z) : M World (option bytes) :=
  call (fun tr => r_GetVideoFormat drv tr h (c_int f))
       (IC_GetVideoFormat h (c_int f)).

Definition set_video_format (h : Handle) (fmt : bytes) : M World Z :=
  call (fun tr => c_int (r_SetVideoFormat drv tr h fmt))
       (IC_SetVideoFormat h fmt).

(** The four output parameters are [c_long] and [c_int] objects; the
    answer carries the values found in them after the call. *)
Definition get_image_description (h : Handle)
  : M World (Z * (Z * Z * Z * Z)) :=
  call (fun tr =>
          match r_GetImageDescription drv tr h with
          | (r, (w, ht, bd, col)) =>
              (c_int r, (c_long w, c_long ht, c_int bd, c_int col))
          end)
       (fun a =>
          match a with
          | (r, (w, ht, bd, col)) => IC_GetImageDescription h r w ht bd col
          end).

Definition remove_overlay (h : Handle) (arg : Z) : M World Z :=
  call (fun tr => c_int (r_RemoveOverlay drv tr h (c_int arg)))
       (IC_RemoveOverlay h (c_int arg)).

Definition get_format (h : Handle) : M World Z :=
  call (fun tr => c_int (r_GetFormat drv tr h)) (IC_GetFormat h).

Definition set_format (h : Handle) (mode : Z) : M World Z :=
  call (fun tr => c_int (r_SetFormat drv tr h (c_int mode)))
       (IC_SetFormat h (c_int mode)).

Definition start_live (h : Handle) (show : Z) : M World Z :=
  call (fun tr => c_int (r_StartLive drv tr h (c_int show)))
       (IC_StartLive h (c_int show)).

Definition snap_image (h : Handle) (timeout : Z) : M World Z :=
  call (fun tr => c_int (r_SnapImage drv tr h (c_int timeout)))
       (IC_SnapImage h (c_int timeout)).

Definition get_image_pointer (h : Handle) : M World Pointer :=
  call (fun tr => r_GetImagePtr drv tr h) (IC_GetImagePtr h).

(** [restype = None]: the call evaluates to [None]. *)
Definition stop_live (h : Handle) : M World PyVal :=
  call (fun _ => VNone) (fun _ => IC_StopLive h).

Definition release_grabber (h : Handle) : M World PyVal :=
  call (fun _ => VNone) (fun _ => IC_ReleaseGrabber h).

Definition get_property (h : Handle) (prop : Z) : M World (Z * Z) :=
  call (fun tr =>
          match r_GetCameraProperty drv tr h (c_uint prop) with
          | (r, v) => (c_int r, c_long v)
          end)
       (fun a => IC_GetCameraProperty h (c_uint prop) (fst a) (snd a)).

Definition set_property (h : Handle) (prop value : Z) : M World Z :=
  call (fun tr =>
          c_int (r_SetCameraProperty drv tr h (c_uint prop) (c_long value)))
       (IC_SetCameraProperty h (c_uint prop) (c_long value)).

Definition get_auto_property (h : Handle) (prop : Z) : M World (Z * Z) :=
  call (fun tr =>
          match r_GetAutoCameraProperty drv tr h (c_int prop) with
          | (r, v) => (c_int r, c_int v)
          end)
       (fun a => IC_GetAutoCameraProperty h (c_int prop) (fst a) (snd a)).

Definition set_auto_property (h : Handle) (prop onoff : Z) : M World Z :=
  call (fun tr =>
          c_int (r_EnableAutoCameraProperty drv tr h (c_int prop) (c_int onoff)))
       (IC_EnableAutoCameraProperty h (c_int prop) (c_int onoff)).

Definition get_property_range (h : Handle) (prop : Z)
  : M World (Z * (Z * Z)) :=
  call (fun tr =>
          match r_CameraPropertyGetRange drv tr h (c_uint prop) with
          | (r, (lo, hi)) => (c_int r, (c_long lo, c_long hi))
          end)
       (fun a =>
          IC_CameraPropertyGetRange h (c_uint prop)
            (fst a) (fst (snd a)) (snd (snd a))).

Definition is_trigger_available (h : Handle) : M World Z :=
  call (fun tr => c_int (r_IsTriggerAvailable drv tr h))
       (IC_IsTriggerAvailable h).

Definition enable_trigger (h : Handle) (enable : Z) : M World Z :=
  call (fun tr => c_int (r_EnableTrigger drv tr h (c_int enable)))
       (IC_EnableTrigger h (c_int enable)).

Definition software_trigger (h : Handle) : M World Z :=
  call (fun tr => c_int (r_SoftwareTrigger drv tr h)) (IC_SoftwareTrigger h).

End EntryPoints.
End dll.

(* ===================================================================== *)
(** ** The module's global names *)
(* ===================================================================== *)

(** The names bound at module level when a method runs: the imports, the
    class, [main], and the DLL management section.  A bare name inside a
    method that is neither a local nor one of these (nor a builtin)
    raises [NameError]; the names of a class body are not in scope
    inside its methods. *)
Definition module_globals : list string :=
  ["C"; "np"; "np_tif"; "DMK_x3GP031"; "main"; "dll";
   "GrabberHandle_t"; "GrabberHandle"].

Definition load_global {S} (line : N) (name : string) : M S PyVal :=
  if existsb (String.eqb name) module_globals
  then ret (VGlobal name)
  else raise (NameError line name).

(* ===================================================================== *)
(** ** class DMK_x3GP031 *)
(* ===================================================================== *)

Module DMK_x3GP031.

(** The attributes of a camera object.  [name], [live], [handle] and
    [video_formats] are assigned in [__init__] before any method runs;
    the others are assigned by [get_image_information] and
    [get_exposure], and reading one before that raises
    [AttributeError]. *)
Record Session := mk_session {
  name : bytes;
  live : bool;
  handle : Handle;
  video_formats : list (option bytes);
  width : option Z;
  height : option Z;
  bit_depth : option Z;
  exposure_microseconds : option Z;
  exposure_seconds : option float;
  exposure_milliseconds : option float
}.

(** A method runs on the object and the world around it. *)
Record St := mk_st {
  self : Session;
  world : World
}.

Definition lift {A} (c : M World A) : M St A :=
  fun st =>
    match c (world st) with
    | (r, w') => (r, mk_st (self st) w')
    end.

Definition gets {A} (f : Session -> A) : M St A :=
  fun st => (inr (f (self st)), st).

Definition update (f : Session -> Session) : M St unit :=
  fun st => (inr tt, mk_st (f (self st)) (world st)).

(** Reading an attribute that may not have been assigned yet. *)
Definition getattr {A} (line : N) (attr : string) (f : Session -> option A)
  : M St A :=
  fun st =>
    match f (self st) with
    | Some a => (inr a, st)
    | None => (inl (AttributeError line attr), st)
    end.

Definition set_live (b : bool) (s : Session) : Session :=
  mk_session (name s) b (handle s) (video_formats s) (width s) (height s)
    (bit_depth s) (exposure_microseconds s) (exposure_seconds s)
    (exposure_milliseconds s).

Definition set_width_height (w h : Z) (s : Session) : Session :=
  mk_session (name s) (live s) (handle s) (video_formats s) (Some w) (Some h)
    (bit_depth s) (exposure_microseconds s) (exposure_seconds s)
    (exposure_milliseconds s).

Definition set_bit_depth (bd : Z) (s : Session) : Session :=
  mk_session (name s) (live s) (handle s) (video_formats s) (width s)
    (height s) (Some bd) (exposure_microseconds s) (exposure_seconds s)
    (exposure_milliseconds s).

Definition set_exposure_microseconds (us : Z) (s : Session) : Session :=
  mk_session (name s) (live s) (handle s) (video_formats s) (width s)
    (height s) (bit_depth s) (Some us) (exposure_seconds s)
    (exposure_milliseconds s).

Definition set_exposure_seconds (x : float) (s : Session) : Session :=
  mk_session (name s) (live s) (handle s) (video_formats s) (width s)
    (height s) (bit_depth s) (exposure_microseconds s) (Some x)
    (exposure_milliseconds s).

Definition set_exposure_milliseconds (x : float) (s : Session) : Session :=
  mk_session (name s) (live s) (handle s) (video_formats s) (width s)
    (height s) (bit_depth s) (exposure_microseconds s) (exposure_seconds s)
    (Some x).

(** The caller's arrays. *)
Definition deref (r : Ref) : M St ndarray :=
  fun st => (inr (heap (world st) r), st).

Definition store (r : Ref) (a : ndarray) : M St unit :=
  fun st =>
    let w := world st in
    (inr tt,
     mk_st (self st)
       (mk_world (trace w) (stdout w) (files w)
          (fun r' => if Nat.eqb r' r then a else heap w r'))).

(** [np_tif.array_to_tif(array, filename)]: the image-encoding
    collaborator, taken as writing the array under that name. *)
Definition array_to_tif (a : ndarray) (filename : string) : M St unit :=
  fun st =>
    let w := world st in
    (inr tt,
     mk_st (self st)
       (mk_world (trace w) (stdout w) (files w ++ [(filename, a)]) (heap w))).

(** A [video_format] argument: a bytes object or a str. *)
Inductive FormatArg :=
| FmtBytes (b : bytes)
| FmtStr (s : str).

Definition default_video_format : FormatArg := FmtBytes "Y16 (2592x1944)".

(** The condition of lines 14-16 on a device name. *)
Definition is_our_camera (name : bytes) : bool :=
  let tokens := bytes_split name in
  if Nat.eqb (List.length tokens) 3 then
    if String.eqb (nth 0 tokens EmptyString) "DMK" then
      bytes_in (nth 1 tokens EmptyString) ["33GP031"; "23GP031"]
    else false
  else false.

Definition pyval_is_none (v : PyVal) : bool :=
  match v with VNone => true | _ => false end.

Section Methods.

Variable drv : Driver.

(** Whether [import np_tif] succeeded when the module was loaded
    ([np_tif] is [None] otherwise). *)
Variable np_tif : bool.

Definition start_live (verbose : bool) : M St PyVal :=
  when verbose (lift (print_with [VStr " Starting live..."] " " EmptyString)) ;;
  h <- gets handle ;;
  r <- lift (dll.start_live drv h 0) ;;
  assert_ 146 (Z.eqb dll.success r) ;;
  update (set_live true) ;;
  when verbose (lift (print [VStr " done"])) ;;
  ret VNone.

Definition stop_live (verbose : bool) : M St PyVal :=
  when verbose (lift (print_with [VStr " Stopping live..."] " " EmptyString)) ;;
  h <- gets handle ;;
  r <- lift (dll.stop_live h) ;;
  assert_ 153 (pyval_is_none r) ;;
  update (set_live false) ;;
  when verbose (lift (print [VStr " done"])) ;;
  ret VNone.

Definition get_image_information (verbose : bool) : M St PyVal :=
  h <- gets handle ;;
  d <- lift (dll.get_image_description drv h) ;;
  match d with
  | (r, (width, height, bit_depth, color)) =>
      assert_ 92 (Z.eqb r dll.success) ;;
      assert_ 94 (Z.eqb bit_depth 16) ;;
      assert_ 95 (Z.eqb color 4) ;;
      update (set_width_height width height) ;;
      update (set_bit_depth bit_depth) ;;
      when verbose
        (lift (print_with
                 [VStr " Camera image format: "; VInt width; VStr "x";
                  VInt height; VStr " "; VInt bit_depth; VStr "-bit"]
                 EmptyString nl)) ;;
      ret VNone
  end.

(** Lines 44-47: [bytes(video_format)], and for a str (on which it
    raises [TypeError]) [bytes(video_format, encoding='ascii')]. *)
Definition to_bytes (video_format : FormatArg) : M St bytes :=
  match video_format with
  | FmtBytes b => ret b
  | FmtStr s =>
      match encode_ascii s with
      | Some b => ret b
      | None => raise (UnicodeEncodeError 47)
      end
  end.

(** Lines 51-52. *)
Fixpoint print_available (fmts : list (option bytes)) : M St unit :=
  match fmts with
  | [] => ret tt
  | fmt :: rest =>
      match fmt with
      | None => raise (AttributeError 52 "startswith")
      | Some b =>
          when (startswith b "Y16") (lift (print [VBytes b])) ;;
          print_available rest
      end
  end.

Definition Y16_mode : Z := 4.

Definition set_video_format (video_format : FormatArg) (verbose : bool)
  : M St PyVal :=
  video_format <- to_bytes video_format ;;
  assert_ 48 (startswith video_format "Y16") ;;
  formats <- gets video_formats ;;
  (if negb (bytes_in_opt video_format formats) then
     lift (print [VStr (String.append "***Error: format not available***" nl);
                  VStr "Available formats:"]) ;;
     print_available formats ;;
     raise (UserWarning 53
              [VStr "Requested video format ["; VStrOf (VBytes video_format);
               VStr "] not available"])
   else ret tt) ;;
  (if verbose then
     match decode_utf8 video_format with
     | Some text =>
         lift (print [VStr " Setting video format to:"; VText text])
     | None => raise (UnicodeDecodeError 56)
     end
   else ret tt) ;;
  h <- gets handle ;;
  r <- lift (dll.set_video_format drv h video_format) ;;
  assert_ 57 (Z.eqb r dll.success) ;;
  r <- lift (dll.remove_overlay drv h 0) ;;
  assert_ 68 (Z.eqb r dll.success) ;;
  is_live <- gets live ;;
  (if is_live then stop_live verbose ;; ret tt else ret tt) ;;
  r <- lift (dll.set_format drv h Y16_mode) ;;
  assert_ 73 (Z.eqb r dll.success) ;;
  start_live false ;;
  stop_live false ;;
  r <- lift (dll.get_format drv h) ;;
  assert_ 79 (Z.eqb r Y16_mode) ;;
  get_image_information verbose ;;
  ret VNone.

Definition get_exposure (verbose : bool) : M St PyVal :=
  h <- gets handle ;;
  p <- lift (dll.get_property drv h dll.exposure) ;;
  match p with
  | (r, exposure) =>
      assert_ 135 (Z.eqb r dll.success) ;;
      update (set_exposure_microseconds exposure) ;;
      update (set_exposure_seconds (fmul (float_of_int exposure) f_1em6)) ;;
      update (set_exposure_milliseconds (fmul (float_of_int exposure) f_1em3)) ;;
      when verbose
        (lift (print [VFormat " Camera exposure: %0.6f seconds"
                        (VFloat (fmul (float_of_int exposure) f_1em6))])) ;;
      ret VNone
  end.

(** Line 122: [int(exposure_seconds * 1e6)]. *)
Definition to_microseconds (exposure_seconds : float) : M St Z :=
  match int_of_float (fmul exposure_seconds f_1e6) with
  | IntOk z => ret z
  | IntNaN => raise (ValueError 122)
  | IntInf => raise (OverflowError 122)
  end.

Definition set_exposure (exposure_seconds : float) (verbose : bool)
  : M St PyVal :=
  h <- gets handle ;;
  p <- lift (dll.get_auto_property drv h dll.exposure) ;;
  assert_ 106 (Z.eqb (fst p) dll.success) ;;
  assert_ 108 (Z.eqb (snd p) 0 || Z.eqb (snd p) 1)%bool ;;
  (if Z.eqb (snd p) 1 then
     when verbose
       (lift (print_with [VStr " Deactivating autoexposure... "] " " EmptyString)) ;;
     r <- lift (dll.set_auto_property drv h dll.exposure 0) ;;
     assert_ 111 (Z.eqb r dll.success) ;;
     q <- lift (dll.get_auto_property drv h dll.exposure) ;;
     assert_ 113 (Z.eqb (fst q) dll.success) ;;
     assert_ 115 (Z.eqb (snd q) 0) ;;
     when verbose (lift (print [VStr "done."]))
   else ret tt) ;;
  rng <- lift (dll.get_property_range drv h dll.exposure) ;;
  match rng with
  | (r, (min_exp, max_exp)) =>
      assert_ 119 (Z.eqb r dll.success) ;;
      exposure_microseconds <- to_microseconds exposure_seconds ;;
      (if negb (Z.ltb min_exp exposure_microseconds
                && Z.ltb exposure_microseconds max_exp)%bool then
         lift (print [VStr "Minimum exposure:";
                      VFloat (fmul (float_of_int min_exp) f_1em6); VStr "(s)"]) ;;
         lift (print [VStr "Maximum exposure:";
                      VFloat (fmul (float_of_int max_exp) f_1em6); VStr "(s)"]) ;;
         raise (UserWarning 126 [VStr "Requested exposure is not possible"])
       else ret tt) ;;
      r <- lift (dll.set_property drv h dll.exposure exposure_microseconds) ;;
      assert_ 128 (Z.eqb r dll.success) ;;
      get_exposure verbose ;;
      ret VNone
  end.

(** Line 236: [np.ctypeslib.as_array(pointer, (bytes_per_image,))], a
    flat array over the [bytes_per_image] bytes found at the pointer.
    A NULL pointer and a negative length are refused. *)
Definition as_array (pointer : Pointer) (n : Z) : M St ndarray :=
  match pointer with
  | None => raise (ValueError 236)
  | Some mem =>
      if Z.ltb n 0 then raise (ValueError 236)
      else ret (mk_ndarray [n] uint8
                  (map (fun i => mem i mod 256) (seq 0 (Z.to_nat n))))
  end.

(** Line 237: the byte count must be even. *)
Definition view_uint16 (a : ndarray) : M St ndarray :=
  let n := Z.of_nat (List.length (data a)) in
  if Z.eqb (n mod 2) 0
  then ret (mk_ndarray [n / 2] uint16 (pair_up (data a)))
  else raise (ValueError 237).

Definition _snapped_image_as_numpy_array : M St ndarray :=
  h <- gets handle ;;
  pointer <- lift (dll.get_image_pointer drv h) ;;
  bd <- getattr 234 "bit_depth" bit_depth ;;
  let bytes_per_pixel := bd / 8 in
  w <- getattr 235 "width" width ;;
  ht <- getattr 235 "height" height ;;
  let bytes_per_image := w * ht * bytes_per_pixel in
  image <- as_array pointer bytes_per_image ;;
  image <- view_uint16 image ;;
  image <- (match reshape2 image ht w with
            | Some a => ret a
            | None => raise (ValueError 238)
            end) ;;
  ret (right_shift image 4).

Definition _save_snapped_image_as_tif (filename : string) (verbose : bool)
  : M St PyVal :=
  (if negb np_tif then
     raise (UserWarning 204
              [VStr "If you want to save as TIF, get np_tif.py here:";
               VStr "https://github.com/AndrewGYork/tools/blob/master/np_tif.py";
               VStr "We failed to import np_tif.py.";
               VStr "This means we can't save camera images as TIFs."])
   else ret tt) ;;
  assert_ 209 (endswith filename ".tif") ;;
  (if verbose then
     (* [image] is not a local of this method: a global lookup *)
     image <- load_global 211 "image" ;;
     lift (print_with
             [VStr " Saving a"; VAttr image "shape"; VAttr image "dtype";
              VStr "image as"; VStr filename; VStr "..."] " " EmptyString)
   else ret tt) ;;
  image <- _snapped_image_as_numpy_array ;;
  array_to_tif image filename ;;
  when verbose (lift (print [VStr "done"])) ;;
  ret VNone.

Definition _copy_snapped_image_to_numpy_array
  (output_array : option Ref) (verbose : bool) : M St PyVal :=
  (* line 221 calls [_snapped_image_as_numpy_array()] without [self.]:
     the name is looked up among the globals; what follows the lookup
     is what the call would do were the name bound to the method *)
  load_global 221 "_snapped_image_as_numpy_array" ;;
  image <- _snapped_image_as_numpy_array ;;
  match output_array with
  | None => ret (VArray image)
  | Some r =>
      out <- deref r ;;
      assert_ 225 (shape_eqb (shape out) (shape image)) ;;
      assert_ 226 (dtype_eqb (dtype out) (dtype image)) ;;
      store r (mk_ndarray (shape out) (dtype out) (data image)) ;;
      ret VNone
  end.

(** The body of [snap].  [self._copy_snapped_image_to_numpy_array] is
    looked up on the object when line 197 runs; the body is written
    for the method [copy] found there, and [snap] below is the body
    with the method of this class. *)
Definition snap_calling (copy : option Ref -> bool -> M St PyVal)
  (filename : option string) (timeout_milliseconds : option Z)
  (verbose : bool) (output_array : option Ref) : M St PyVal :=
  (match filename, output_array with
   | None, None =>
       lift (print [VStr "When the camera snaps an image, where is the data going?"]) ;;
       lift (print [VStr "Disk? (set 'filename')"]) ;;
       lift (print [VStr "Memory? (set 'output_array')"]) ;;
       lift (print [VStr "You didn't set either one. No good."]) ;;
       raise (UserWarning 169
                [VStr "Where should the camera put the snapped image?"])
   | _, _ => ret tt
   end) ;;
  when verbose (lift (print [VStr " Snapping:"])) ;;
  is_live <- gets live ;;
  already_live <- (if is_live then ret true
                   else start_live verbose ;; ret false) ;;
  let timeout_milliseconds :=
    match timeout_milliseconds with
    | None => -1
    | Some t => t
    end in
  h <- gets handle ;;
  r <- lift (dll.snap_image drv h timeout_milliseconds) ;;
  assert_ 190 (Z.eqb r dll.success) ;;
  (if negb already_live then stop_live verbose ;; ret tt else ret tt) ;;
  match filename with
  | Some f => _save_snapped_image_as_tif f verbose ;; ret tt
  | None => ret tt
  end ;;
  match output_array with
  | Some a => copy (Some a) verbose ;; ret tt
  | None => ret tt
  end ;;
  ret VNone.

Definition snap : option string -> option Z -> bool -> option Ref -> M St PyVal :=
  snap_calling _copy_snapped_image_to_numpy_array.

Definition enable_trigger (enable : bool) : M St PyVal :=
  h <- gets handle ;;
  r <- lift (dll.is_trigger_available drv h) ;;
  assert_ 244 (Z.eqb r 1) ;;
  r <- lift (dll.enable_trigger drv h (if enable then 1 else 0)) ;;
  lift (print [VInt r]) ;;
  ret VNone.

Definition send_trigger : M St PyVal :=
  h <- gets handle ;;
  r <- lift (dll.software_trigger drv h) ;;
  assert_ 252 (Z.eqb r dll.success) ;;
  ret VNone.

Definition close (verbose : bool) : M St PyVal :=
  is_live <- gets live ;;
  (if is_live then stop_live verbose ;; ret tt else ret tt) ;;
  h <- gets handle ;;
  lift (dll.release_grabber h) ;;
  when verbose (lift (print [VStr "Camera closed."])) ;;
  ret VNone.

(** Lines 11-22: the [for ... else] loop over the device indices. *)
Fixpoint find_camera (verbose : bool) (ds : list Z) : M World bytes :=
  match ds with
  | [] =>
      raise (UserWarning 21
               [VStr "Failed to find a DMK *3GP031 camera.";
                VStr "Is the camera plugged in?"])
  | d :: rest =>
      name <- dll.get_unique_name_from_list drv d ;;
      match name with
      | None => raise (AttributeError 14 "split")
      | Some nm =>
          if is_our_camera nm then
            (if verbose then
               match decode_ascii nm with
               | Some text => print [VStr "Camera found, named:"; VText text]
               | None => raise (UnicodeDecodeError 18)
               end
             else ret tt) ;;
            ret nm
          else find_camera verbose rest
      end
  end.

(** Lines 31-35. *)
Fixpoint list_video_formats (h : Handle) (fs : list Z)
  : M World (list (option bytes)) :=
  match fs with
  | [] => ret []
  | f :: rest =>
      fmt <- dll.get_video_format drv h f ;;
      more <- list_video_formats h rest ;;
      ret (fmt :: more)
  end.

(** The literal [0.1]. *)
Definition f_0_1 : float :=
  Eval vm_compute in fdiv (float_of_int 1) (float_of_int 10).

(** Running the rest of [__init__] on the object under construction. *)
Definition on_object {A} (s : Session) (c : M St A) : M World Session :=
  fun w =>
    match c (mk_st s w) with
    | (inl e, st) => (inl e, world st)
    | (inr _, st) => (inr (self st), world st)
    end.

Definition __init__ (verbose : bool) : M World Session :=
  num_devices <- dll.get_device_count drv ;;
  name <- find_camera verbose (range num_devices) ;;
  h <- dll.create_grabber drv ;;
  r <- dll.open_by_name drv h name ;;
  assert_ 27 (Z.eqb r dll.success) ;;
  r <- dll.is_valid drv h ;;
  assert_ 28 (Z.eqb r dll.success) ;;
  num_formats <- dll.get_video_format_count drv h ;;
  formats <- list_video_formats h (range num_formats) ;;
  assert_ 36 (bytes_in_opt "Y16 (2592x1944)" formats) ;;
  on_object
    (mk_session name false h formats None None None None None None)
    (set_video_format default_video_format verbose ;;
     set_exposure f_0_1 verbose ;;
     enable_trigger false).

End Methods.
End DMK_x3GP031.

(* ===================================================================== *)
(** ** The vocabulary of the specification *)
(* ===================================================================== *)

Import DMK_x3GP031.

(** Modelled from the spec: the error taxonomy of section 7.  The module
    raises only [UserWarning] and [AssertionError]; each name of the
    taxonomy stands for the statements of the source that raise for that
    reason.  No statement of the module stands for [SessionClosedError];
    [DriverInitFailed] belongs to the loading of the module. *)
Inductive ErrorKind :=
| DeviceNotFound
| DeviceOpenFailed
| UnsupportedFormat
| FormatVerificationFailed
| AutoExposureDisableFailed
| ExposureOutOfRange
| StartLiveFailed
| NoOutputDestination
| SnapFailed
| OutputBufferMismatch
| TriggerUnsupported
| TriggerFailed
| SessionClosedError
| DriverInitFailed.

Definition error_kind (e : PyExc) : option ErrorKind :=
  match e with
  | UserWarning 21 _ => Some DeviceNotFound
  | AssertionError 27 | AssertionError 28 => Some DeviceOpenFailed
  | AssertionError 48 | UserWarning 53 _ => Some UnsupportedFormat
  | AssertionError 79 => Some FormatVerificationFailed
  | AssertionError 111 | AssertionError 113 | AssertionError 115 =>
      Some AutoExposureDisableFailed
  | UserWarning 126 _ => Some ExposureOutOfRange
  | AssertionError 146 => Some StartLiveFailed
  | UserWarning 169 _ => Some NoOutputDestination
  | AssertionError 190 => Some SnapFailed
  | AssertionError 225 | AssertionError 226 => Some OutputBufferMismatch
  | AssertionError 244 => Some TriggerUnsupported
  | AssertionError 252 => Some TriggerFailed
  | _ => None
  end.

(** A computation fails with an error of a given kind. *)
Definition fails_with {A} (r : Result A) (k : ErrorKind) : Prop :=
  exists e, r = inl e /\ error_kind e = Some k.

(** Modelled from the spec: the streaming state of the device behind a
    handle (section 4.4).  The driver is not part of the module; its
    state is read off the calls it has answered: a start-live call that
    reports success leaves the device streaming, a stop-live call leaves
    it stopped (the call reports no status and is taken to succeed), and
    no other call changes it. *)
Definition streaming_after (h : Handle) (b : bool) (e : Event) : bool :=
  match e with
  | IC_StartLive h' _ r =>
      if (Z.eqb h' h && Z.eqb r dll.success)%bool then true else b
  | IC_StopLive h' => if Z.eqb h' h then false else b
  | _ => b
  end.

Definition streaming (h : Handle) (tr : Trace) : bool :=
  fold_left (streaming_after h) tr false.

(** The tracked flag agrees with the device. *)
Definition tracks_driver (st : St) : Prop :=
  live (self st) = streaming (handle (self st)) (trace (world st)).

(** The events a computation added to the trace. *)
Definition added (w w' : World) (evs : list Event) : Prop :=
  trace w' = trace w ++ evs.

(** ** A cooperative camera, for running the methods on concrete inputs *)

(** One device, three formats, every call succeeds, a 2 x 2 frame whose
    bytes are 16, 1, 32, 2, 48, 3, 64, 4. *)
Definition frame_memory (i : nat) : Z :=
  nth i [16; 1; 32; 2; 48; 3; 64; 4] 0.

Definition camera : Driver :=
  mk_driver
    (fun _ => 1)
    (fun _ _ => Some "DMK 33GP031 44614274")
    (fun _ => 7)
    (fun _ _ _ => 1)
    (fun _ _ => 1)
    (fun _ _ => 3)
    (fun _ _ f =>
       Some (nth (Z.to_nat f)
               ["Y16 (2592x1944)"; "Y16 (1024x768)"; "Y800 (2592x1944)"]
               EmptyString))
    (fun _ _ _ => 1)
    (fun _ _ => (1, (2, 2, 16, 4)))
    (fun _ _ _ => 1)
    (fun _ _ => 4)
    (fun _ _ _ => 1)
    (fun _ _ _ => 1)
    (fun _ _ _ => 1)
    (fun _ _ => Some frame_memory)
    (fun _ _ _ => (1, 100000))
    (fun _ _ _ _ => 1)
    (fun _ _ _ => (1, 0))
    (fun _ _ _ _ => 1)
    (fun _ _ _ => (1, (100, 30000000)))
    (fun _ _ => 1)
    (fun _ _ _ => 0)
    (fun _ _ => 1).

Definition blank_array : ndarray := mk_ndarray [2; 2] uint16 [0; 0; 0; 0].

Definition empty_world : World :=
  mk_world [] [] [] (fun _ => blank_array).

(** A session as [__init__] leaves it on that camera. *)
Definition opened : Session :=
  mk_session "DMK 33GP031 44614274" false 7
    [Some "Y16 (2592x1944)"; Some "Y16 (1024x768)"; Some "Y800 (2592x1944)"]
    (Some 2) (Some 2) (Some 16)
    (Some 100000) (Some (fmul (float_of_int 100000) f_1em6))
    (Some (fmul (float_of_int 100000) f_1em3)).

(* ===================================================================== *)
(** ** Operations, runs and the relations used to state the properties *)
(* ===================================================================== *)

(** The operations a caller invokes on an open session. *)
Inductive Operation :=
| op_set_video_format (video_format : FormatArg) (verbose : bool)
| op_set_exposure (exposure_seconds : float) (verbose : bool)
| op_start_live (verbose : bool)
| op_stop_live (verbose : bool)
| op_snap (filename : option string) (timeout_milliseconds : option Z)
          (verbose : bool) (output_array : option Ref)
| op_enable_trigger (enable : bool)
| op_send_trigger.

Definition perform (drv : Driver) (np_tif : bool) (op : Operation)
  : M St PyVal :=
  match op with
  | op_set_video_format f v => set_video_format drv f v
  | op_set_exposure x v => set_exposure drv x v
  | op_start_live v => start_live drv v
  | op_stop_live v => stop_live v
  | op_snap f t v a => snap drv np_tif f t v a
  | op_enable_trigger b => enable_trigger drv b
  | op_send_trigger => send_trigger drv
  end.

(** The calls of the live-mode state machine. *)
Definition live_operation (op : Operation) : bool :=
  match op with
  | op_start_live _ | op_stop_live _ | op_snap _ _ _ _ => true
  | _ => false
  end.

(** A caller issuing operations one after the other, going on after an
    operation that raised (the object and the world stay as the failed
    operation left them). *)
Fixpoint perform_all (drv : Driver) (np_tif : bool) (ops : list Operation)
  (st : St) : St :=
  match ops with
  | [] => st
  | op :: rest => perform_all drv np_tif rest (snd (perform drv np_tif op st))
  end.

(** However a computation ends, the state it leaves is related by [R]
    to the state it found. *)
Definition stable {S A} (R : S -> S -> Prop) (c : M S A) : Prop :=
  forall s, R s (snd (c s)).

(** The relations: the flag keeps agreeing with the device; the
    caller's arrays are untouched; the object is untouched; the trace
    only grows. *)
Definition keeps_tracking (st st' : St) : Prop :=
  tracks_driver st -> tracks_driver st'.

Definition same_heap (st st' : St) : Prop :=
  heap (world st') = heap (world st).

Definition same_self (st st' : St) : Prop :=
  self st' = self st.

(** The driver calls made between two states are all of one sort. *)
Definition adds_only (P : Event -> Prop) (st st' : St) : Prop :=
  exists evs, added (world st) (world st') evs /\ Forall P evs.

(** A computation keeps a relation between the state it starts from and
    the state it ends in, unless it raises one of the exceptions [X]. *)
Definition unless {A} (X : PyExc -> Prop) (R : St -> St -> Prop)
  (c : M St A) : Prop :=
  forall st, (exists e, fst (c st) = inl e /\ X e) \/ R st (snd (c st)).

(** A sink-format answer of the driver, when the event is one, is the
    Y16 code. *)
Definition reports_Y16 (ev : Event) : Prop :=
  match ev with
  | IC_GetFormat _ r => r = Y16_mode
  | _ => True
  end.

(** Only the printed output changed. *)
Definition only_prints (st st' : St) : Prop :=
  self st' = self st
  /\ trace (world st') = trace (world st)
  /\ files (world st') = files (world st)
  /\ heap (world st') = heap (world st).

Definition trace_grows (w w' : World) : Prop :=
  exists evs, added w w' evs.

Definition trace_grows_st (st st' : St) : Prop :=
  trace_grows (world st) (world st').

(** The driver reports a fixed list of devices: their count, and the
    name of each by index. *)
Definition reports_devices (drv : Driver) (devs : list bytes) : Prop :=
  (forall tr, r_GetDeviceCount drv tr = Z.of_nat (List.length devs))
  /\ (forall tr i,
         (i < List.length devs)%nat ->
         r_GetUniqueNamefromList drv tr (Z.of_nat i) = nth_error devs i).

(** The queries [__init__] makes for the names of [names], met from
    index [start] on. *)
Fixpoint name_queries (start : nat) (names : list bytes) : list Event :=
  match names with
  | [] => []
  | nm :: rest =>
      IC_GetUniqueNamefromList (Z.of_nat start) (Some nm)
      :: name_queries (S start) rest
  end.

(** The names looked at by the search: all of them up to and including
    the first that matches. *)
Fixpoint searched (names : list bytes) : list bytes :=
  match names with
  | [] => []
  | nm :: rest => if is_our_camera nm then [nm] else nm :: searched rest
  end.

(** The event is a call that creates or opens a device. *)
Definition opens_device (e : Event) : bool :=
  match e with
  | IC_CreateGrabber _ | IC_OpenDevByUniqueName _ _ _ => true
  | _ => false
  end.

(** The event is a write of a camera property. *)
Definition writes_property (e : Event) : bool :=
  match e with
  | IC_SetCameraProperty _ _ _ _ => true
  | _ => false
  end.

(** What [print(fmt)] leaves on the output for each listed format. *)
Definition listing (fmts : list bytes) : list Printed :=
  map (fun b => mk_printed [VBytes b] " " nl)
      (filter (fun b => startswith b "Y16") fmts).

(** Two stand-ins for the copy method that agree whenever a buffer is
    passed and differ when none is. *)
Definition copy_refusing (output_array : option Ref) (verbose : bool)
  : M St PyVal :=
  match output_array with
  | None => raise (ValueError 0)
  | Some _ => ret VNone
  end.

Definition copy_allocating (output_array : option Ref) (verbose : bool)
  : M St PyVal :=
  match output_array with
  | None => ret (VArray blank_array)
  | Some _ => ret VNone
  end.

(* ===================================================================== *)
(** ** Reasoning about computations *)
(* ===================================================================== *)

(** *** What a computation that returned must have done *)

Section Inversion.

Context {S : Type}.

Lemma bind_ok {A B} (c : M S A) (k : A -> M S B) s v s' :
  bind c k s = (inr v, s') ->
  exists a s1, c s = (inr a, s1) /\ k a s1 = (inr v, s').
Proof.
  unfold bind. destruct (c s) as [[e | a] s1]; intros H.
  - discriminate.
  - exists a, s1. split; [reflexivity | exact H].
Qed.

Lemma bind_inl {A B} (c : M S A) (k : A -> M S B) s e s1 :
  c s = (inl e, s1) -> bind c k s = (inl e, s1).
Proof. unfold bind. intros ->. reflexivity. Qed.

Lemma bind_inr {A B} (c : M S A) (k : A -> M S B) s a s1 :
  c s = (inr a, s1) -> bind c k s = k a s1.
Proof. unfold bind. intros ->. reflexivity. Qed.

Lemma ret_ok {A} (a v : A) (s s' : S) :
  ret a s = (inr v, s') -> v = a /\ s' = s.
Proof. unfold ret. intros H. injection H as <- <-. split; reflexivity. Qed.

Lemma raise_ok {A} e (v : A) (s s' : S) : raise e s = (inr v, s') -> False.
Proof. unfold raise. discriminate. Qed.

Lemma assert_ok line cond u (s s' : S) :
  assert_ line cond s = (inr u, s') -> cond = true /\ s' = s.
Proof.
  unfold assert_. destruct cond; intros H.
  - apply ret_ok in H. destruct H as [_ ->]. split; reflexivity.
  - apply raise_ok in H. contradiction.
Qed.

(** A computation that returns a value or raises, whatever it is. *)
Lemma outcome {A} (c : M S A) s :
  (exists e, fst (c s) = inl e) \/ (exists a, fst (c s) = inr a).
Proof. destruct (c s) as [[e | a] s1]; cbn; eauto. Qed.

(** When every continuation raises, so does the whole. *)
Lemma bind_fails {A B} (c : M S A) (k : A -> M S B) s :
  (forall a s1, exists e, fst (k a s1) = inl e) ->
  exists e, fst (bind c k s) = inl e.
Proof.
  intros Hk. unfold bind. destruct (c s) as [[e | a] s1]; cbn.
  - eauto.
  - apply Hk.
Qed.

(** When the first part raises, the continuation does not matter. *)
Lemma bind_fails_first {A B} (c : M S A) (k : A -> M S B) s e :
  fst (c s) = inl e -> fst (bind c k s) = inl e.
Proof.
  unfold bind. destruct (c s) as [[e1 | a] s1]; cbn; intros H.
  - injection H as ->. reflexivity.
  - discriminate.
Qed.

End Inversion.

(** *** Relations that every step of a computation respects *)

Section Stable.

Context {S : Type} (R : S -> S -> Prop) `{!PreOrder R}.

Lemma stable_ret {A} (a : A) : stable R (ret a).
Proof. intros s. reflexivity. Qed.

Lemma stable_raise {A} e : stable R (raise (A := A) e).
Proof. intros s. reflexivity. Qed.

Lemma stable_bind {A B} (c : M S A) (k : A -> M S B) :
  stable R c -> (forall a, stable R (k a)) -> stable R (bind c k).
Proof.
  intros Hc Hk s. unfold bind.
  specialize (Hc s). destruct (c s) as [[e | a] s1]; cbn in *.
  - exact Hc.
  - transitivity s1; [exact Hc | apply Hk].
Qed.

Lemma stable_assert line cond : stable R (assert_ line cond).
Proof. destruct cond; [apply stable_ret | apply stable_raise]. Qed.

Lemma stable_when cond (c : M S unit) :
  stable R c -> stable R (when cond c).
Proof. intros H. destruct cond; [exact H | apply stable_ret]. Qed.

Lemma stable_load_global line name : stable R (load_global line name).
Proof.
  unfold load_global.
  destruct (existsb _ _); [apply stable_ret | apply stable_raise].
Qed.

End Stable.

#[local] Instance keeps_tracking_preorder : PreOrder keeps_tracking.
Proof.
  split.
  - intros st H. exact H.
  - intros a b c Hab Hbc H. apply Hbc, Hab, H.
Qed.

#[local] Instance same_heap_preorder : PreOrder same_heap.
Proof.
  split.
  - intros st. reflexivity.
  - intros a b c Hab Hbc. unfold same_heap in *. congruence.
Qed.

#[local] Instance same_self_preorder : PreOrder same_self.
Proof.
  split.
  - intros st. reflexivity.
  - intros a b c Hab Hbc. unfold same_self in *. congruence.
Qed.

#[local] Instance trace_grows_preorder : PreOrder trace_grows.
Proof.
  split.
  - intros w. exists []. unfold added. rewrite app_nil_r. reflexivity.
  - intros a b c [e1 H1] [e2 H2]. exists (e1 ++ e2). unfold added in *.
    rewrite H2, H1, app_assoc. reflexivity.
Qed.

#[local] Instance trace_grows_st_preorder : PreOrder trace_grows_st.
Proof.
  split.
  - intros st. unfold trace_grows_st. reflexivity.
  - intros a b c Hab Hbc. unfold trace_grows_st in *.
    transitivity (world b); assumption.
Qed.

(** *** The streaming state along a trace *)

Lemma streaming_app h tr evs :
  streaming h (tr ++ evs) = fold_left (streaming_after h) evs (streaming h tr).
Proof. unfold streaming. apply fold_left_app. Qed.

Lemma streaming_snoc h tr e :
  streaming h (tr ++ [e]) = streaming_after h (streaming h tr) e.
Proof. rewrite streaming_app. reflexivity. Qed.

(** *** The steps of the methods, one by one *)

Arguments wrap32 : simpl never.
Arguments c_int : simpl never.
Arguments c_long : simpl never.
Arguments c_uint : simpl never.
Arguments streaming : simpl never.
#[local] Arguments Z.eqb : simpl never.
#[local] Arguments Z.ltb : simpl never.
#[local] Arguments Z.leb : simpl never.
#[local] Arguments Z.div : simpl never.
#[local] Arguments Z.modulo : simpl never.
#[local] Arguments Z.mul : simpl never.

Create HintDb dll.

#[local] Hint Unfold
  dll.get_device_count dll.get_unique_name_from_list dll.create_grabber
  dll.open_by_name dll.is_valid dll.get_video_format_count
  dll.get_video_format dll.set_video_format dll.get_image_description
  dll.remove_overlay dll.get_format dll.set_format dll.start_live
  dll.snap_image dll.get_image_pointer dll.stop_live dll.release_grabber
  dll.get_property dll.set_property dll.get_auto_property
  dll.set_auto_property dll.get_property_range dll.is_trigger_available
  dll.enable_trigger dll.software_trigger : dll.

Lemma c_int_small z : - 2 ^ 31 <= z < 2 ^ 31 -> c_int z = z.
Proof.
  intros H. unfold c_int, wrap32.
  rewrite Z.mod_small by lia. lia.
Qed.

Lemma c_int_bool (b : bool) : c_int (if b then 1 else 0) = if b then 1 else 0.
Proof. destruct b; reflexivity. Qed.

Section Steps.

Context (R : St -> St -> Prop) `{!PreOrder R}.

Lemma stable_gets {A} (f : Session -> A) : stable R (gets f).
Proof. intros st. reflexivity. Qed.

Lemma stable_getattr {A} line attr (f : Session -> option A) :
  stable R (getattr line attr f).
Proof. intros st. unfold getattr. destruct (f (self st)); reflexivity. Qed.

Lemma stable_deref r : stable R (deref r).
Proof. intros st. reflexivity. Qed.

Lemma stable_lift {A} (c : M World A) :
  (forall s w, R (mk_st s w) (mk_st s (snd (c w)))) -> stable R (lift c).
Proof.
  intros H [s w]. unfold lift. cbn.
  specialize (H s w). destruct (c w) as [r w']. exact H.
Qed.

End Steps.

(** The generic walk through a method body: binds, asserts, branches;
    [leaf] settles the steps that touch the state. *)
Ltac stable_walk leaf :=
  repeat first
    [ match goal with |- PreOrder _ => typeclasses eauto end
    | leaf
    | apply stable_ret
    | apply stable_raise
    | apply stable_assert
    | apply stable_load_global
    | apply stable_gets
    | apply stable_getattr
    | apply stable_deref
    | apply stable_when
    | apply stable_bind;
      match goal with
      | |- forall _, _ => intros ?
      | _ => idtac
      end
    | match goal with
      | |- stable _ (if ?b then _ else _) => destruct b
      | |- stable _ (match ?x with _ => _ end) => destruct x
      end
    | progress cbv zeta ].

(** **** The flag and the device *)

Lemma tracking_call {A} (answer : Trace -> A) (ev : A -> Event) :
  (forall a h b, streaming_after h b (ev a) = b) ->
  stable keeps_tracking (lift (dll.call answer ev)).
Proof.
  intros Hev. apply stable_lift. intros s w H.
  unfold tracks_driver in *. cbn in *.
  rewrite streaming_snoc, Hev. exact H.
Qed.

Lemma tracking_print args sep end_ :
  stable keeps_tracking (lift (print_with args sep end_)).
Proof. apply stable_lift. intros s w H. exact H. Qed.

Lemma tracking_update f :
  (forall s, live (f s) = live s /\ handle (f s) = handle s) ->
  stable keeps_tracking (update f).
Proof.
  intros Hf [s w] H. unfold tracks_driver in *. cbn in *.
  destruct (Hf s) as [-> ->]. exact H.
Qed.

Lemma tracking_store r a : stable keeps_tracking (store r a).
Proof. intros [s w] H. exact H. Qed.

Lemma tracking_array_to_tif a f : stable keeps_tracking (array_to_tif a f).
Proof. intros [s w] H. exact H. Qed.

Ltac tracking_leaf :=
  first
    [ apply tracking_print
    | unfold print; apply tracking_print
    | apply tracking_store
    | apply tracking_array_to_tif
    | apply tracking_update; intros []; split; reflexivity
    | autounfold with dll; apply tracking_call; intros; reflexivity ].

(** [start_live]: the flag is set exactly when the driver reported
    success, which is when the device starts streaming. *)
Lemma start_live_tracking drv verbose :
  stable keeps_tracking (start_live drv verbose).
Proof.
  intros [s w] H. unfold tracks_driver in *.
  unfold start_live, when, print, print_with, modify, lift, gets, update,
    dll.start_live, dll.call, bind, ret, assert_, raise.
  destruct verbose; cbn in *;
    destruct (Z.eqb dll.success (c_int (r_StartLive drv (trace w) (handle s) (c_int 0))))
      eqn:E; cbn;
    rewrite streaming_snoc; cbn;
    rewrite Z.eqb_refl, (Z.eqb_sym _ dll.success), E; cbn; auto.
Qed.

Lemma stop_live_tracking verbose : stable keeps_tracking (stop_live verbose).
Proof.
  intros [s w] H. unfold tracks_driver in *.
  unfold stop_live, when, print, print_with, modify, lift, gets, update,
    dll.stop_live, dll.call, bind, ret, assert_, raise.
  destruct verbose; cbn in *; rewrite streaming_snoc; cbn;
    rewrite Z.eqb_refl; reflexivity.
Qed.

Lemma snapped_image_tracking drv :
  stable keeps_tracking (_snapped_image_as_numpy_array drv).
Proof.
  unfold _snapped_image_as_numpy_array, as_array, view_uint16.
  stable_walk tracking_leaf.
Qed.

Lemma save_tracking drv np_tif filename verbose :
  stable keeps_tracking (_save_snapped_image_as_tif drv np_tif filename verbose).
Proof.
  unfold _save_snapped_image_as_tif.
  stable_walk ltac:(first [apply snapped_image_tracking | tracking_leaf]).
Qed.

Lemma copy_tracking drv output_array verbose :
  stable keeps_tracking
    (_copy_snapped_image_to_numpy_array drv output_array verbose).
Proof.
  unfold _copy_snapped_image_to_numpy_array.
  stable_walk ltac:(first [apply snapped_image_tracking | tracking_leaf]).
Qed.

Lemma snap_tracking drv np_tif filename timeout verbose output_array :
  stable keeps_tracking (snap drv np_tif filename timeout verbose output_array).
Proof.
  unfold snap, snap_calling.
  stable_walk ltac:(first
    [ apply start_live_tracking | apply stop_live_tracking
    | apply save_tracking | apply copy_tracking | tracking_leaf ]).
Qed.

Lemma live_operation_tracking drv np_tif op :
  live_operation op = true -> stable keeps_tracking (perform drv np_tif op).
Proof.
  destruct op; cbn; intros H; try discriminate.
  - apply start_live_tracking.
  - apply stop_live_tracking.
  - apply snap_tracking.
Qed.

(** **** The object itself *)

Lemma self_lift {A} (c : M World A) : stable same_self (lift c).
Proof. apply stable_lift. intros s w. reflexivity. Qed.

Lemma self_store r a : stable same_self (store r a).
Proof. intros [s w]. reflexivity. Qed.

Lemma self_array_to_tif a f : stable same_self (array_to_tif a f).
Proof. intros [s w]. reflexivity. Qed.

Ltac self_leaf :=
  first [ apply self_lift | apply self_store | apply self_array_to_tif ].

Lemma snapped_image_self drv :
  stable same_self (_snapped_image_as_numpy_array drv).
Proof.
  unfold _snapped_image_as_numpy_array, as_array, view_uint16.
  stable_walk self_leaf.
Qed.

Lemma save_self drv np_tif filename verbose :
  stable same_self (_save_snapped_image_as_tif drv np_tif filename verbose).
Proof.
  unfold _save_snapped_image_as_tif.
  stable_walk ltac:(first [apply snapped_image_self | self_leaf]).
Qed.

Lemma copy_self drv output_array verbose :
  stable same_self (_copy_snapped_image_to_numpy_array drv output_array verbose).
Proof.
  unfold _copy_snapped_image_to_numpy_array.
  stable_walk ltac:(first [apply snapped_image_self | self_leaf]).
Qed.

(** What a stable computation did, read off one of its runs. *)
Lemma stable_run {S A} (R : S -> S -> Prop) (c : M S A) s r s' :
  stable R c -> c s = (r, s') -> R s s'.
Proof. intros H E. specialize (H s). rewrite E in H. exact H. Qed.

(** **** Single runs of [start_live] and [stop_live] *)

Lemma c_int_0 : c_int 0 = 0.
Proof. reflexivity. Qed.

Lemma start_live_ok drv verbose st v st' :
  start_live drv verbose st = (inr v, st') ->
  v = VNone
  /\ self st' = set_live true (self st)
  /\ added (world st) (world st')
       [IC_StartLive (handle (self st)) 0 dll.success]
  /\ heap (world st') = heap (world st)
  /\ files (world st') = files (world st).
Proof.
  destruct st as [s w].
  unfold start_live, when, print, print_with, modify, lift, gets, update,
    dll.start_live, dll.call, bind, ret, assert_, raise, added.
  rewrite c_int_0.
  destruct verbose; cbn;
    destruct (Z.eqb dll.success (c_int (r_StartLive drv (trace w) (handle s) 0)))
      eqn:E; cbn; intros H; try discriminate;
    injection H as <- <-; cbn;
    apply Z.eqb_eq in E; rewrite <- E; auto.
Qed.

Lemma start_live_failed drv verbose st e st' :
  start_live drv verbose st = (inl e, st') ->
  e = AssertionError 146
  /\ self st' = self st
  /\ exists r, r <> dll.success
       /\ added (world st) (world st') [IC_StartLive (handle (self st)) 0 r].
Proof.
  destruct st as [s w].
  unfold start_live, when, print, print_with, modify, lift, gets, update,
    dll.start_live, dll.call, bind, ret, assert_, raise, added.
  rewrite c_int_0.
  destruct verbose; cbn;
    destruct (Z.eqb dll.success (c_int (r_StartLive drv (trace w) (handle s) 0)))
      eqn:E; cbn; intros H; try discriminate;
    injection H as <- <-; cbn;
    apply Z.eqb_neq in E; (split; [reflexivity|]); (split; [reflexivity|]);
    eexists; (split; [|reflexivity]); congruence.
Qed.

Lemma stop_live_run verbose st :
  exists st',
    stop_live verbose st = (inr VNone, st')
    /\ self st' = set_live false (self st)
    /\ added (world st) (world st') [IC_StopLive (handle (self st))]
    /\ heap (world st') = heap (world st)
    /\ files (world st') = files (world st).
Proof.
  destruct st as [s w].
  unfold stop_live, when, print, print_with, modify, lift, gets, update,
    dll.stop_live, dll.call, bind, ret, assert_, raise, added.
  destruct verbose; cbn; eexists; repeat split.
Qed.

Lemma set_live_same s : set_live (live s) s = s.
Proof. destruct s; reflexivity. Qed.

Lemma set_live_twice b b' s : set_live b (set_live b' s) = set_live b s.
Proof. reflexivity. Qed.

(** **** The trace only grows *)

Lemma grows_call {A} (answer : Trace -> A) (ev : A -> Event) :
  stable trace_grows_st (lift (dll.call answer ev)).
Proof.
  apply stable_lift. intros s w. eexists [_]. reflexivity.
Qed.

Lemma grows_print args sep end_ :
  stable trace_grows_st (lift (print_with args sep end_)).
Proof.
  apply stable_lift. intros s w. exists []. unfold added. cbn.
  rewrite app_nil_r. reflexivity.
Qed.

Lemma grows_same_world {A} (c : M St A) :
  (forall st, trace (world (snd (c st))) = trace (world st)) ->
  stable trace_grows_st c.
Proof.
  intros H st. exists []. unfold added. rewrite app_nil_r. apply H.
Qed.

Ltac grows_leaf :=
  first
    [ apply grows_print
    | unfold print; apply grows_print
    | autounfold with dll; apply grows_call
    | apply grows_same_world; intros []; reflexivity ].

Lemma snapped_image_grows drv :
  stable trace_grows_st (_snapped_image_as_numpy_array drv).
Proof.
  unfold _snapped_image_as_numpy_array, as_array, view_uint16.
  stable_walk grows_leaf.
Qed.

Lemma save_grows drv np_tif filename verbose :
  stable trace_grows_st (_save_snapped_image_as_tif drv np_tif filename verbose).
Proof.
  unfold _save_snapped_image_as_tif.
  stable_walk ltac:(first [apply snapped_image_grows | grows_leaf]).
Qed.

Lemma copy_grows drv output_array verbose :
  stable trace_grows_st
    (_copy_snapped_image_to_numpy_array drv output_array verbose).
Proof.
  unfold _copy_snapped_image_to_numpy_array.
  stable_walk ltac:(first [apply snapped_image_grows | grows_leaf]).
Qed.

(** **** Reading a run that returned, step by step *)

Lemma gets_ok {A} (f : Session -> A) st a st' :
  gets f st = (inr a, st') -> a = f (self st) /\ st' = st.
Proof. unfold gets. intros H. injection H as <- <-. auto. Qed.

Lemma lift_print_ok args sep end_ st u st' :
  lift (print_with args sep end_) st = (inr u, st') ->
  st' = mk_st (self st) (log_print (mk_printed args sep end_) (world st)).
Proof. unfold lift. cbn. intros H. injection H as <- <-. reflexivity. Qed.

Lemma lift_call_ok {A} (answer : Trace -> A) (ev : A -> Event) st a st' :
  lift (dll.call answer ev) st = (inr a, st') ->
  a = answer (trace (world st))
  /\ st' = mk_st (self st) (log_call (ev a) (world st)).
Proof. unfold lift. cbn. intros H. injection H as <- <-. auto. Qed.

Lemma update_ok f st u st' :
  update f st = (inr u, st') -> st' = mk_st (f (self st)) (world st).
Proof. unfold update. intros H. injection H as <- <-. reflexivity. Qed.

Lemma when_ok {S} cond (c : M S unit) s u s' :
  when cond c s = (inr u, s') ->
  (cond = true /\ c s = (inr u, s')) \/ (cond = false /\ s' = s).
Proof.
  unfold when. destruct cond; intros H.
  - left. auto.
  - right. apply ret_ok in H. tauto.
Qed.

Ltac run_inv H :=
  lazymatch type of H with
  | bind _ _ _ = (inr _, _) =>
      let a := fresh "a" in
      let s := fresh "s" in
      let H1 := fresh "H" in
      apply bind_ok in H as (a & s & H1 & H); cbv beta in H;
      run_inv H1; run_inv H
  | ret _ _ = (inr _, _) =>
      apply ret_ok in H; destruct H as [? ?]; subst
  | raise _ _ = (inr _, _) => apply raise_ok in H; contradiction
  | assert_ _ _ _ = (inr _, _) =>
      apply assert_ok in H; destruct H as [H ?]; subst
  | gets _ _ = (inr _, _) =>
      apply gets_ok in H; destruct H as [? ?]; subst
  | update _ _ = (inr _, _) => apply update_ok in H; subst
  | lift (print_with _ _ _) _ = (inr _, _) => apply lift_print_ok in H; subst
  | lift (print _) _ = (inr _, _) =>
      unfold print in H; apply lift_print_ok in H; subst
  | lift (dll.call _ _) _ = (inr _, _) =>
      apply lift_call_ok in H; destruct H as [? ?]; subst
  | _ => idtac
  end.

Lemma c_int_m1 : c_int (-1) = -1.
Proof. reflexivity. Qed.

Lemma no_destination_guard (filename : option string)
  (output_array : option Ref) (st : St) u st' :
  (match filename, output_array with
   | None, None =>
       lift (print [VStr "When the camera snaps an image, where is the data going?"]) ;;
       lift (print [VStr "Disk? (set 'filename')"]) ;;
       lift (print [VStr "Memory? (set 'output_array')"]) ;;
       lift (print [VStr "You didn't set either one. No good."]) ;;
       raise (UserWarning 169
                [VStr "Where should the camera put the snapped image?"])
   | _, _ => ret tt
   end) st = (inr u, st') ->
  st' = st /\ (filename <> None \/ output_array <> None).
Proof.
  intros H. destruct filename, output_array; run_inv H;
    (split; [reflexivity | ]); (left + right); discriminate.
Qed.

Lemma snap_tail drv np_tif filename verbose output_array :
  stable same_self
    (match filename with
     | Some f => _save_snapped_image_as_tif drv np_tif f verbose ;; ret tt
     | None => ret tt
     end ;;
     match output_array with
     | Some a => _copy_snapped_image_to_numpy_array drv (Some a) verbose ;; ret tt
     | None => ret tt
     end ;;
     ret VNone)
  /\ stable trace_grows_st
    (match filename with
     | Some f => _save_snapped_image_as_tif drv np_tif f verbose ;; ret tt
     | None => ret tt
     end ;;
     match output_array with
     | Some a => _copy_snapped_image_to_numpy_array drv (Some a) verbose ;; ret tt
     | None => ret tt
     end ;;
     ret VNone).
Proof.
  split.
  - stable_walk ltac:(first [apply save_self | apply copy_self | self_leaf]).
  - stable_walk ltac:(first [apply save_grows | apply copy_grows | grows_leaf]).
Qed.

Lemma snap_completed drv np_tif filename timeout verbose output_array st v st' :
  snap drv np_tif filename timeout verbose output_array st = (inr v, st') ->
  v = VNone
  /\ self st' = self st
  /\ exists rest,
       let h := handle (self st) in
       let t := c_int (match timeout with Some t => t | None => -1 end) in
       added (world st) (world st')
         (if live (self st)
          then IC_SnapImage h t dll.success :: rest
          else IC_StartLive h 0 dll.success
               :: IC_SnapImage h t dll.success :: IC_StopLive h :: rest).
Proof.
  intros H. unfold snap, snap_calling in H.
  apply bind_ok in H as (u0 & s0 & H0 & H).
  apply no_destination_guard in H0 as [-> _].
  apply bind_ok in H as (u1 & s1 & H1 & H).
  assert (E1 : self s1 = self st /\ trace (world s1) = trace (world st)).
  { apply when_ok in H1 as [[_ H1] | [_ ->]]; [ | auto].
    run_inv H1. auto. }
  destruct E1 as [E1 T1]. clear H1.
  apply bind_ok in H as (il & s1' & Hl & H). run_inv Hl.
  apply bind_ok in H as (al & s2 & H2 & H).
  apply bind_ok in H as (h & s3 & H3 & H). run_inv H3.
  apply bind_ok in H as (r & s4 & H4 & H).
  unfold dll.snap_image in H4. run_inv H4.
  apply bind_ok in H as (u5 & s5 & H5 & H). run_inv H5.
  apply Z.eqb_eq in H5.
  apply bind_ok in H as (u6 & s6 & H6 & H).
  rewrite H5 in H6. clear H5.
  set (t := c_int match timeout with Some t => t | None => -1 end) in *.
  destruct (snap_tail drv np_tif filename verbose output_array) as [Ts Tg].
  pose proof (Ts s6) as Hs. pose proof (Tg s6) as [rest Hg].
  rewrite H in Hs, Hg. cbn in Hs, Hg.
  assert (v = VNone) as ->.
  { run_inv H. reflexivity. }
  clear H Ts Tg. split; [reflexivity | ].
  unfold same_self in Hs. unfold added in *. cbn.
  rewrite E1 in H2.
  destruct (live (self st)) eqn:L.
  - run_inv H2. cbn in H6. run_inv H6. cbn in *.
    split; [congruence | ].
    exists rest. rewrite Hg. cbn. rewrite T1, E1, <- app_assoc.
    reflexivity.
  - apply bind_ok in H2 as (u2 & s2' & H2 & H2').
    run_inv H2'.
    apply start_live_ok in H2 as (_ & S2 & G2 & _).
    cbn in H6. apply bind_ok in H6 as (u7 & s7 & H6 & H6').
    run_inv H6'.
    destruct (stop_live_run verbose
                (mk_st (self s2')
                   (log_call (IC_SnapImage (handle (self s2')) t dll.success)
                      (world s2'))))
      as (s8 & E8 & S8 & G8 & _).
    rewrite E8 in H6. injection H6 as ? ?. subst.
    cbn in *. unfold added in *. rewrite E1 in *.
    split.
    + rewrite Hs, S8, S2, set_live_twice, <- L. apply set_live_same.
    + exists rest. rewrite Hg, G8. cbn. rewrite G2, T1, S2. cbn.
      repeat rewrite <- app_assoc. reflexivity.
Qed.

(* ===================================================================== *)
(** ** The properties of the specification *)
(* ===================================================================== *)

(** *** Live mode *)

Lemma perform_all_tracking drv np_tif ops :
  forallb live_operation ops = true ->
  forall st, tracks_driver st -> tracks_driver (perform_all drv np_tif ops st).
Proof.
  induction ops as [ | op ops IH]; cbn; intros Hops st H.
  - exact H.
  - apply andb_true_iff in Hops as [Hop Hops].
    apply IH; [exact Hops | ].
    apply (@live_operation_tracking drv np_tif op Hop st H).
Qed.

(** C2.  After any sequence of [start_live], [stop_live] and [snap]
    calls on a session whose [live] flag agrees with the device, the
    flag still agrees with the device (whether the calls returned or
    raised).  A [start_live] that returns leaves [live] true; [stop_live]
    always returns and leaves [live] false; a [snap] that returns leaves
    the object as it found it, and on a stopped session it has gone
    live, snapped and stopped again. *)
Theorem live_flag_tracks_streaming drv np_tif ops st :
  tracks_driver st ->
  forallb live_operation ops = true ->
  tracks_driver (perform_all drv np_tif ops st)
  /\ (forall verbose st0 v st1,
         start_live drv verbose st0 = (inr v, st1) -> live (self st1) = true)
  /\ (forall verbose st0,
         exists st1,
           stop_live verbose st0 = (inr VNone, st1)
           /\ live (self st1) = false)
  /\ (forall filename timeout verbose output_array st0 v st1,
         snap drv np_tif filename timeout verbose output_array st0
           = (inr v, st1) ->
         live (self st1) = live (self st0)
         /\ (live (self st0) = false ->
             exists rest,
               added (world st0) (world st1)
                 (IC_StartLive (handle (self st0)) 0 dll.success
                  :: IC_SnapImage (handle (self st0))
                       (c_int (match timeout with Some t => t | None => -1 end))
                       dll.success
                  :: IC_StopLive (handle (self st0)) :: rest))).
Proof.
  intros H Hops. split; [ | split; [ | split]].
  - apply perform_all_tracking; assumption.
  - intros verbose st0 v st1 E.
    apply start_live_ok in E as (_ & -> & _). reflexivity.
  - intros verbose st0.
    destruct (stop_live_run verbose st0) as (st1 & E & S1 & _).
    exists st1. split; [exact E | ]. rewrite S1. reflexivity.
  - intros filename timeout verbose output_array st0 v st1 E.
    apply snap_completed in E as (_ & S1 & rest & G).
    split; [rewrite S1; reflexivity | ].
    intros L. cbv zeta in G. rewrite L in G. exists rest. exact G.
Qed.

Lemma live_flag_tracks_streaming_witness :
  tracks_driver (mk_st opened empty_world)
  /\ tracks_driver
       (perform_all camera true
          [op_start_live false; op_snap (Some "x.tif") None false None;
           op_stop_live false; op_snap None (Some 50) true (Some 0%nat);
           op_start_live true]
          (mk_st opened empty_world)).
Proof.
  split.
  - reflexivity.
  - apply (@live_flag_tracks_streaming camera true
             [op_start_live false; op_snap (Some "x.tif") None false None;
              op_stop_live false; op_snap None (Some 50) true (Some 0%nat);
              op_start_live true]
             (mk_st opened empty_world)).
    + reflexivity.
    + reflexivity.
Defined.

(** *** Snapping *)

(** C3.  [snap] with neither a file name nor an output array fails with
    [NoOutputDestination]; no driver call is made, and the object, the
    files and the caller's arrays are as they were. *)
Theorem snap_without_destination drv np_tif timeout verbose st :
  fails_with
    (fst (snap drv np_tif None timeout verbose None st)) NoOutputDestination
  /\ self (snd (snap drv np_tif None timeout verbose None st)) = self st
  /\ trace (world (snd (snap drv np_tif None timeout verbose None st)))
     = trace (world st)
  /\ files (world (snd (snap drv np_tif None timeout verbose None st)))
     = files (world st)
  /\ heap (world (snd (snap drv np_tif None timeout verbose None st)))
     = heap (world st).
Proof.
  destruct st as [s w]. cbn. repeat split.
  eexists. split; reflexivity.
Qed.

(** The copy method stops at its first line: the name it calls is not
    bound.  Nothing was done yet. *)
Lemma copy_raises drv output_array verbose st :
  _copy_snapped_image_to_numpy_array drv output_array verbose st
  = (inl (NameError 221 "_snapped_image_as_numpy_array"), st).
Proof. reflexivity. Qed.

Lemma copy_stable (R : St -> St -> Prop) `{!PreOrder R} drv output_array verbose :
  stable R (_copy_snapped_image_to_numpy_array drv output_array verbose).
Proof. intros st. rewrite copy_raises. reflexivity. Qed.

(** **** The caller's arrays *)

Lemma heap_lift_call {A} (answer : Trace -> A) (ev : A -> Event) :
  stable same_heap (lift (dll.call answer ev)).
Proof. apply stable_lift. intros s w. reflexivity. Qed.

Lemma heap_print args sep end_ :
  stable same_heap (lift (print_with args sep end_)).
Proof. apply stable_lift. intros s w. reflexivity. Qed.

Lemma heap_update f : stable same_heap (update f).
Proof. intros [s w]. reflexivity. Qed.

Lemma heap_array_to_tif a f : stable same_heap (array_to_tif a f).
Proof. intros [s w]. reflexivity. Qed.

Ltac heap_leaf :=
  first
    [ apply heap_print
    | unfold print; apply heap_print
    | apply heap_update
    | apply heap_array_to_tif
    | apply copy_stable; typeclasses eauto
    | autounfold with dll; apply heap_lift_call ].

Lemma snap_same_heap drv np_tif filename timeout verbose output_array :
  stable same_heap (snap drv np_tif filename timeout verbose output_array).
Proof.
  unfold snap, snap_calling, start_live, stop_live,
    _save_snapped_image_as_tif, _snapped_image_as_numpy_array,
    as_array, view_uint16.
  stable_walk heap_leaf.
Qed.

(** With an output array, [snap] always raises. *)
Lemma snap_into_buffer_fails drv np_tif filename timeout verbose r st :
  exists e,
    fst (snap drv np_tif filename timeout verbose (Some r) st) = inl e.
Proof.
  destruct (outcome (snap drv np_tif filename timeout verbose (Some r)) st)
    as [He | [v Hv]]; [exact He | exfalso].
  destruct (snap drv np_tif filename timeout verbose (Some r) st)
    as [res st'] eqn:E.
  cbn in Hv. subst res.
  unfold snap, snap_calling in E.
  do 9 (apply bind_ok in E as (? & ? & _ & E)).
  apply bind_ok in E as (? & ? & E' & _).
  apply bind_ok in E' as (? & ? & E' & _).
  rewrite copy_raises in E'. discriminate.
Qed.

(** C1.  The code does not do what the claim says.  Into a buffer of
    the frame's own shape and sample type ([2 x 2], [uint16], on the
    cooperative camera), [snap] raises [NameError] after the driver has
    snapped, and the buffer keeps its content.  This holds for every
    driver, session and buffer: with an output array [snap] never
    returns and never writes to the caller's arrays, because the copy
    method fails on its first line (it calls
    [_snapped_image_as_numpy_array] without [self.]) before the shape
    and sample type are compared.  The method it means to call does
    produce the samples shifted right by 4 bits. *)
Theorem snap_into_buffer_raises_NameError :
  (shape (heap empty_world 0%nat) = [2; 2]
   /\ dtype (heap empty_world 0%nat) = uint16
   /\ fst (snap camera true None (Some 50) false (Some 0%nat)
             (mk_st opened empty_world))
      = inl (NameError 221 "_snapped_image_as_numpy_array")
   /\ data (heap (world (snd (snap camera true None (Some 50) false
                                (Some 0%nat) (mk_st opened empty_world))))
              0%nat)
      = [0; 0; 0; 0])
  /\ (forall drv np_tif filename timeout verbose r st,
         (exists e,
             fst (snap drv np_tif filename timeout verbose (Some r) st) = inl e)
         /\ heap (world (snd (snap drv np_tif filename timeout verbose
                                (Some r) st)))
            = heap (world st))
  /\ (forall drv output_array verbose st,
         _copy_snapped_image_to_numpy_array drv output_array verbose st
         = (inl (NameError 221 "_snapped_image_as_numpy_array"), st))
  /\ fst (_snapped_image_as_numpy_array camera (mk_st opened empty_world))
     = inr (mk_ndarray [2; 2] uint16
              (map (fun x => Z.shiftr x 4) [16 + 256 * 1; 32 + 256 * 2;
                                            48 + 256 * 3; 64 + 256 * 4])).
Proof.
  split; [ | split; [ | split]].
  - repeat split.
  - intros drv np_tif filename timeout verbose r st. split.
    + apply snap_into_buffer_fails.
    + apply (@snap_same_heap drv np_tif filename timeout verbose (Some r) st).
  - intros. apply copy_raises.
  - reflexivity.
Qed.

(** C9.  [snap] returns [None] or raises, whatever its arguments; it
    never returns a frame.  Its run does not depend on what the copy
    method does when it is given no buffer: [snap] calls it only with
    the caller's buffer. *)
Theorem snap_returns_None drv np_tif
  (copy copy' : option Ref -> bool -> M St PyVal)
  filename timeout verbose output_array st :
  (forall r v, copy (Some r) v = copy' (Some r) v) ->
  ((exists e,
       fst (snap drv np_tif filename timeout verbose output_array st) = inl e)
   \/ fst (snap drv np_tif filename timeout verbose output_array st)
      = inr VNone)
  /\ snap_calling drv np_tif copy filename timeout verbose output_array st
     = snap_calling drv np_tif copy' filename timeout verbose output_array st.
Proof.
  intros Hcopy. split.
  - destruct (snap drv np_tif filename timeout verbose output_array st)
      as [[e | v] st'] eqn:E; cbn.
    + left. exists e. reflexivity.
    + right. apply snap_completed in E as (-> & _). reflexivity.
  - unfold snap_calling. destruct output_array as [r | ].
    + rewrite (Hcopy r verbose). reflexivity.
    + reflexivity.
Qed.

Lemma snap_returns_None_witness :
  ((exists e,
       fst (snap camera true (Some "x.tif") None false None
              (mk_st opened empty_world)) = inl e)
   \/ fst (snap camera true (Some "x.tif") None false None
             (mk_st opened empty_world)) = inr VNone)
  /\ snap_calling camera true copy_refusing (Some "x.tif") None false None
       (mk_st opened empty_world)
     = snap_calling camera true copy_allocating (Some "x.tif") None false None
         (mk_st opened empty_world).
Proof.
  apply (@snap_returns_None camera true copy_refusing copy_allocating
           (Some "x.tif") None false None (mk_st opened empty_world)).
  intros r v. reflexivity.
Defined.

(** *** Format negotiation *)

Lemma to_bytes_run video_format st :
  snd (to_bytes video_format st) = st.
Proof.
  destruct video_format as [b | s]; cbn; [reflexivity | ].
  destruct (encode_ascii s); reflexivity.
Qed.

Lemma bytes_in_opt_some token fmts :
  bytes_in_opt token (map Some fmts) = bytes_in token fmts.
Proof.
  unfold bytes_in_opt, bytes_in.
  induction fmts as [ | f fmts IH]; cbn; [reflexivity | ].
  rewrite IH. reflexivity.
Qed.

Lemma print_available_run fmts s w :
  print_available (map Some fmts) (mk_st s w)
  = (inr tt,
     mk_st s (mk_world (trace w) (stdout w ++ listing fmts) (files w) (heap w))).
Proof.
  revert w. induction fmts as [ | f fmts IH]; intros w.
  - cbn. unfold listing. cbn. rewrite app_nil_r. destruct w; reflexivity.
  - cbn [map print_available]. unfold listing. cbn [filter].
    destruct (startswith f "Y16") eqn:E.
    + unfold bind at 1. unfold when, lift, print, print_with, modify. cbn.
      rewrite IH. cbn. unfold listing. rewrite <- app_assoc. reflexivity.
    + unfold bind at 1. unfold when. cbn. rewrite IH. reflexivity.
Qed.

(** C5.  A format token that does not start with [b"Y16"] makes
    [set_video_format] fail with [UnsupportedFormat] (the assertion of
    line 48) with the state untouched: no driver call, nothing printed.
    A token with that prefix that is not among the session's formats
    makes it fail with [UnsupportedFormat] (line 53) after printing the
    error banner and the session's formats that start with [b"Y16"];
    again no driver call is made and the session is unchanged. *)
Theorem set_video_format_rejects drv video_format verbose st token fmts :
  fst (to_bytes video_format st) = inr token ->
  startswith token "Y16" = false
  \/ (video_formats (self st) = map Some fmts /\ bytes_in token fmts = false) ->
  fails_with (fst (set_video_format drv video_format verbose st))
    UnsupportedFormat
  /\ self (snd (set_video_format drv video_format verbose st)) = self st
  /\ trace (world (snd (set_video_format drv video_format verbose st)))
     = trace (world st)
  /\ if startswith token "Y16"
     then stdout (world (snd (set_video_format drv video_format verbose st)))
          = stdout (world st)
            ++ mk_printed
                 [VStr (String.append "***Error: format not available***" nl);
                  VStr "Available formats:"] " " nl
               :: listing fmts
     else snd (set_video_format drv video_format verbose st) = st.
Proof.
  intros Htok Hcase.
  assert (E : to_bytes video_format st = (inr token, st)).
  { pose proof (to_bytes_run video_format st) as Hs.
    destruct (to_bytes video_format st) as [r st1]. cbn in Htok, Hs.
    subst. reflexivity. }
  destruct (startswith token "Y16") eqn:P.
  - destruct Hcase as [Hcase | [Hf Habs]]; [discriminate | ].
    destruct st as [s w]. cbn in Hf.
    assert (Run :
      set_video_format drv video_format verbose (mk_st s w)
      = (inl (UserWarning 53
                [VStr "Requested video format ["; VStrOf (VBytes token);
                 VStr "] not available"]),
         mk_st s
           (mk_world (trace w)
              (stdout w
               ++ mk_printed
                    [VStr (String.append "***Error: format not available***" nl);
                     VStr "Available formats:"] " " nl
                  :: listing fmts)
              (files w) (heap w)))).
    { unfold set_video_format. rewrite (bind_inr _ _ _ E).
      unfold bind at 1. cbn. rewrite P. cbn.
      unfold bind at 1. cbn. rewrite Hf, bytes_in_opt_some, Habs. cbn.
      unfold bind at 1. unfold bind at 1. unfold bind at 1.
      unfold lift at 1, print, print_with, modify. cbn.
      rewrite print_available_run. cbn.
      rewrite <- app_assoc. reflexivity. }
    rewrite Run. cbn. repeat split. eexists. split; reflexivity.
  - assert (Run :
      set_video_format drv video_format verbose st
      = (inl (AssertionError 48), st)).
    { unfold set_video_format. rewrite (bind_inr _ _ _ E).
      unfold bind at 1. cbn. rewrite P. reflexivity. }
    rewrite Run. cbn. repeat split. eexists. split; reflexivity.
Qed.

Lemma set_video_format_rejects_witness :
  fails_with
    (fst (set_video_format camera (FmtStr (str_of_string "RGB24 (640x480)"))
            false (mk_st opened empty_world)))
    UnsupportedFormat
  /\ fails_with
       (fst (set_video_format camera (FmtBytes "Y16 (640x480)") false
               (mk_st opened empty_world)))
       UnsupportedFormat.
Proof.
  split.
  - apply (@set_video_format_rejects camera
             (FmtStr (str_of_string "RGB24 (640x480)")) false
             (mk_st opened empty_world) "RGB24 (640x480)" []).
    + reflexivity.
    + left. reflexivity.
  - apply (@set_video_format_rejects camera (FmtBytes "Y16 (640x480)") false
             (mk_st opened empty_world) "Y16 (640x480)"
             ["Y16 (2592x1944)"; "Y16 (1024x768)"; "Y800 (2592x1944)"]).
    + reflexivity.
    + right. split; reflexivity.
Defined.

#[local] Instance only_prints_preorder : PreOrder only_prints.
Proof.
  split.
  - intros st. repeat split.
  - intros a b c (A1 & A2 & A3 & A4) (B1 & B2 & B3 & B4).
    repeat split; congruence.
Qed.

Lemma prints_print args sep end_ :
  stable only_prints (lift (print_with args sep end_)).
Proof. apply stable_lift. intros s w. repeat split. Qed.

Ltac prints_leaf :=
  first [ apply prints_print | unfold print; apply prints_print ].

Lemma c_int_Y16 : c_int Y16_mode = Y16_mode.
Proof. reflexivity. Qed.

Lemma get_image_information_ok drv verbose st v st' :
  get_image_information drv verbose st = (inr v, st') ->
  exists wd ht,
    self st' = set_bit_depth 16 (set_width_height wd ht (self st))
    /\ added (world st) (world st')
         [IC_GetImageDescription (handle (self st)) dll.success wd ht 16 4].
Proof.
  intros H. unfold get_image_information in H.
  apply bind_ok in H as (h & s0 & H0 & H). run_inv H0.
  apply bind_ok in H as (d & s1 & H1 & H).
  unfold dll.get_image_description in H1. run_inv H1.
  destruct (r_GetImageDescription drv (trace (world st)) (handle (self st)))
    as [r [[[wd ht] bd] col]].
  apply bind_ok in H as (u2 & s2 & H2 & H). run_inv H2.
  apply bind_ok in H as (u3 & s3 & H3 & H). run_inv H3.
  apply bind_ok in H as (u4 & s4 & H4 & H). run_inv H4.
  apply bind_ok in H as (u5 & s5 & H5 & H). run_inv H5.
  apply bind_ok in H as (u6 & s6 & H6 & H). run_inv H6.
  apply bind_ok in H as (u7 & s7 & H7 & H). run_inv H.
  apply Z.eqb_eq in H2, H3, H4.
  assert (P : only_prints
                (mk_st (set_bit_depth (c_int bd)
                          (set_width_height (c_long wd) (c_long ht) (self st)))
                   (log_call
                      (IC_GetImageDescription (handle (self st)) (c_int r)
                         (c_long wd) (c_long ht) (c_int bd) (c_int col))
                      (world st)))
                s7).
  { eapply stable_run; [ | exact H7].
    stable_walk prints_leaf. }
  destruct P as (P1 & P2 & _). cbn in P1, P2.
  exists (c_long wd), (c_long ht). unfold added.
  rewrite P1, P2, H2, H3, H4. split; reflexivity.
Qed.

Lemma c_int_zero : c_int 0 = 0.
Proof. reflexivity. Qed.

(** What a [set_video_format] that returned has done. *)
Lemma set_video_format_ok drv video_format verbose st v st' :
  set_video_format drv video_format verbose st = (inr v, st') ->
  exists token wd ht,
    fst (to_bytes video_format st) = inr token
    /\ startswith token "Y16" = true
    /\ bytes_in_opt token (video_formats (self st)) = true
    /\ v = VNone
    /\ self st'
       = set_bit_depth 16 (set_width_height wd ht (set_live false (self st)))
    /\ added (world st) (world st')
         (IC_SetVideoFormat (handle (self st)) token dll.success
          :: IC_RemoveOverlay (handle (self st)) 0 dll.success
          :: (if live (self st) then [IC_StopLive (handle (self st))] else [])
          ++ [IC_SetFormat (handle (self st)) Y16_mode dll.success;
              IC_StartLive (handle (self st)) 0 dll.success;
              IC_StopLive (handle (self st));
              IC_GetFormat (handle (self st)) Y16_mode;
              IC_GetImageDescription (handle (self st)) dll.success wd ht 16 4]).
Proof.
  intros H. unfold set_video_format in H.
  apply bind_ok in H as (token & s0 & H0 & H).
  assert (s0 = st) as ->.
  { pose proof (to_bytes_run video_format st) as E. rewrite H0 in E. exact E. }
  apply bind_ok in H as (u1 & s1 & H1 & H). run_inv H1.
  apply bind_ok in H as (fs & s2 & H2 & H). run_inv H2.
  apply bind_ok in H as (u3 & s3 & H3 & H).
  destruct (bytes_in_opt token (video_formats (self st))) eqn:Hin; cbn in H3.
  2:{ exfalso.
      repeat (apply bind_ok in H3 as (? & ? & _ & H3)).
      apply raise_ok in H3. exact H3. }
  run_inv H3.
  apply bind_ok in H as (u4 & s4 & H4 & H).
  assert (P4 : only_prints st s4).
  { eapply stable_run; [ | exact H4].
    stable_walk prints_leaf. }
  destruct P4 as (S4 & T4 & _). clear H4.
  apply bind_ok in H as (h & s5 & H5 & H). run_inv H5.
  apply bind_ok in H as (r6 & s6 & H6 & H).
  unfold dll.set_video_format in H6. run_inv H6.
  apply bind_ok in H as (u7 & s7 & H7 & H). run_inv H7.
  apply bind_ok in H as (r8 & s8 & H8 & H).
  unfold dll.remove_overlay in H8. run_inv H8.
  apply bind_ok in H as (u9 & s9 & H9 & H). run_inv H9.
  apply bind_ok in H as (il & s10 & H10 & H). run_inv H10.
  cbn [self world] in H, H9.
  apply Z.eqb_eq in H7, H9. rewrite H9, H7, c_int_zero, S4 in H.
  apply bind_ok in H as (u11 & s11 & H11 & H).
  assert (E11 : self s11 = set_live false (self st)
                /\ trace (world s11)
                   = trace (world st)
                     ++ IC_SetVideoFormat (handle (self st)) token dll.success
                     :: IC_RemoveOverlay (handle (self st)) 0 dll.success
                     :: (if live (self st)
                         then [IC_StopLive (handle (self st))] else [])).
  { destruct (live (self st)) eqn:L.
    - apply bind_ok in H11 as (? & s' & H11 & H11').
      apply ret_ok in H11' as [_ ->].
      destruct (stop_live_run verbose
                  (mk_st (self st)
                     (log_call
                        (IC_RemoveOverlay (handle (self st)) 0 dll.success)
                        (log_call
                           (IC_SetVideoFormat (handle (self st)) token dll.success)
                           (world s4)))))
        as (s'' & E & S'' & G'' & _).
      rewrite E in H11. injection H11 as _ <-.
      unfold added in G''. cbn in S'', G''. rewrite S'', G'', T4.
      rewrite <- !app_assoc. split; reflexivity.
    - apply ret_ok in H11 as [_ ->]. cbn. rewrite T4, <- L.
      rewrite set_live_same, <- app_assoc. split; reflexivity. }
  destruct E11 as [S11 T11]. clear H11.
  apply bind_ok in H as (r12 & s12 & H12 & H).
  unfold dll.set_format in H12. run_inv H12.
  apply bind_ok in H as (u13 & s13 & H13 & H). run_inv H13.
  apply Z.eqb_eq in H13. rewrite H13, c_int_Y16 in H.
  apply bind_ok in H as (v14 & s14 & H14 & H).
  apply start_live_ok in H14 as (_ & S14 & G14 & _).
  cbn in S14, G14. unfold added in G14. cbn in G14.
  apply bind_ok in H as (v15 & s15 & H15 & H).
  destruct (stop_live_run false s14) as (s15' & E15 & S15 & G15 & _).
  rewrite E15 in H15. injection H15 as _ <-. unfold added in G15.
  apply bind_ok in H as (r16 & s16 & H16 & H).
  unfold dll.get_format in H16. run_inv H16.
  apply bind_ok in H as (u17 & s17 & H17 & H). run_inv H17.
  apply Z.eqb_eq in H17. rewrite H17 in H.
  apply bind_ok in H as (v18 & s18 & H18 & H).
  apply ret_ok in H as [-> ->].
  apply get_image_information_ok in H18 as (wd & ht & S18 & G18).
  cbn in S18, G18. unfold added in G18. cbn in G18.
  exists token, wd, ht.
  rewrite H0. cbn. repeat split; try assumption.
  - rewrite S18, S15, S14, S11. reflexivity.
  - unfold added. rewrite G18, G15, G14, T11, S15, S14, S11. cbn.
    rewrite <- !app_assoc. cbn. reflexivity.
Qed.

(** **** Calls of one sort *)

#[local] Instance adds_only_preorder P : PreOrder (adds_only P).
Proof.
  split.
  - intros st. exists []. split; [ | constructor].
    unfold added. rewrite app_nil_r. reflexivity.
  - intros s1 s2 s3 (e1 & A1 & F1) (e2 & A2 & F2). exists (e1 ++ e2). split.
    + unfold added in *. rewrite A2, A1, app_assoc. reflexivity.
    + apply Forall_app. split; assumption.
Qed.

Lemma adds_call P {A} (answer : Trace -> A) (ev : A -> Event) :
  (forall a, P (ev a)) -> stable (adds_only P) (lift (dll.call answer ev)).
Proof.
  intros H. apply stable_lift. intros s w. eexists [_]. split.
  - reflexivity.
  - constructor; [apply H | constructor].
Qed.

Lemma adds_same_trace P {A} (c : M St A) :
  (forall st, trace (world (snd (c st))) = trace (world st)) ->
  stable (adds_only P) c.
Proof.
  intros H st. exists []. split; [ | constructor].
  unfold added. rewrite app_nil_r. apply H.
Qed.

Lemma adds_print P args sep end_ :
  stable (adds_only P) (lift (print_with args sep end_)).
Proof. apply adds_same_trace. intros []. reflexivity. Qed.

Ltac adds_leaf :=
  first
    [ apply adds_print
    | unfold print; apply adds_print
    | autounfold with dll; apply adds_call; intros;
      repeat match goal with a : (_ * _)%type |- _ => destruct a end;
      exact I
    | apply adds_same_trace; intros []; reflexivity ].

Lemma print_available_stable (R : St -> St -> Prop) `{!PreOrder R} fmts :
  (forall args, stable R (lift (print args))) ->
  stable R (print_available fmts).
Proof.
  intros Hp. induction fmts as [ | [b | ] fmts IH]; cbn [print_available].
  - stable_walk fail.
  - stable_walk ltac:(first [apply Hp | exact IH]).
  - stable_walk fail.
Qed.

Section Unless.

Context (X : PyExc -> Prop) (R : St -> St -> Prop) `{!PreOrder R}.

Lemma unless_stable {A} (c : M St A) : stable R c -> unless X R c.
Proof. intros H st. right. apply H. Qed.

Lemma unless_bind {A B} (c : M St A) (k : A -> M St B) :
  unless X R c -> (forall a, unless X R (k a)) -> unless X R (bind c k).
Proof.
  intros Hc Hk st. unfold bind.
  specialize (Hc st). destruct (c st) as [[e | a] s1]; cbn in *.
  - destruct Hc as [(e0 & E & Hx) | Hc]; [left | right; exact Hc].
    injection E as ->. exists e0. split; [reflexivity | exact Hx].
  - destruct Hc as [(e & E & _) | Hc]; [discriminate | ].
    destruct (Hk a s1) as [Hx | Hr]; [left; exact Hx | right].
    transitivity s1; assumption.
Qed.

End Unless.

(** The check of line 79: past it, the sink format the driver reported
    is the Y16 code. *)
Lemma unless_verification drv h {A} (k : M St A) :
  unless (eq (AssertionError 79)) (adds_only reports_Y16) k ->
  unless (eq (AssertionError 79)) (adds_only reports_Y16)
    (r <- lift (dll.get_format drv h) ;; assert_ 79 (Z.eqb r Y16_mode) ;; k).
Proof.
  intros Hk [s w].
  set (r := c_int (r_GetFormat drv (trace w) h)).
  set (s1 := mk_st s (log_call (IC_GetFormat h r) w)).
  assert (Run : (r <- lift (dll.get_format drv h) ;;
                 assert_ 79 (Z.eqb r Y16_mode) ;; k) (mk_st s w)
                = if Z.eqb r Y16_mode then k s1
                  else (inl (AssertionError 79), s1)).
  { unfold bind, lift, dll.get_format, dll.call, assert_, ret, raise.
    cbn. fold r. fold s1. destruct (Z.eqb r Y16_mode); reflexivity. }
  rewrite Run. destruct (Z.eqb r Y16_mode) eqn:E.
  - destruct (Hk s1) as [Hx | Hr]; [left; exact Hx | right].
    etransitivity; [ | exact Hr].
    eexists [_]. split; [reflexivity | ].
    constructor; [ | constructor]. apply Z.eqb_eq. exact E.
  - left. exists (AssertionError 79). split; reflexivity.
Qed.

Lemma set_video_format_verified drv video_format verbose :
  unless (eq (AssertionError 79)) (adds_only reports_Y16)
    (set_video_format drv video_format verbose).
Proof.
  unfold set_video_format, to_bytes.
  repeat first
    [ apply unless_verification
    | apply unless_stable;
      solve [ stable_walk
                ltac:(first [ apply print_available_stable;
                              [typeclasses eauto | intros; adds_leaf]
                            | adds_leaf ]) ]
    | apply unless_bind;
      [ typeclasses eauto | | intros ? ] ].
Qed.

(** C7.  A call of [set_video_format] that returns has made exactly
    these driver calls, in this order, each answered with success: set
    the video format, remove the overlay, stop live mode when the
    session was live, set the sink format to the Y16 code 4, start live,
    stop live, read the sink format back (answered with 4), read the
    image description (answered with bit depth 16 and color code 4);
    the width, height and bit depth of that description are then the
    session's.  And a call in which the driver answers the sink-format
    query with another code fails with [FormatVerificationFailed]. *)
Theorem set_video_format_order drv video_format verbose st :
  (forall v st',
      set_video_format drv video_format verbose st = (inr v, st') ->
      exists token wd ht,
        fst (to_bytes video_format st) = inr token
        /\ added (world st) (world st')
             (IC_SetVideoFormat (handle (self st)) token dll.success
              :: IC_RemoveOverlay (handle (self st)) 0 dll.success
              :: (if live (self st)
                  then [IC_StopLive (handle (self st))] else [])
              ++ [IC_SetFormat (handle (self st)) Y16_mode dll.success;
                  IC_StartLive (handle (self st)) 0 dll.success;
                  IC_StopLive (handle (self st));
                  IC_GetFormat (handle (self st)) Y16_mode;
                  IC_GetImageDescription (handle (self st)) dll.success
                    wd ht 16 4])
        /\ width (self st') = Some wd
        /\ height (self st') = Some ht
        /\ bit_depth (self st') = Some 16)
  /\ (forall evs h r,
         added (world st)
           (world (snd (set_video_format drv video_format verbose st))) evs ->
         In (IC_GetFormat h r) evs ->
         r <> Y16_mode ->
         fails_with (fst (set_video_format drv video_format verbose st))
           FormatVerificationFailed).
Proof.
  split.
  - intros v st' H.
    apply set_video_format_ok in H
      as (token & wd & ht & Htok & _ & _ & _ & Hself & Hadd).
    exists token, wd, ht. rewrite Hself. repeat split; assumption.
  - intros evs h r Hadd Hin Hr.
    destruct (set_video_format_verified drv video_format verbose st)
      as [(e & E & <-) | (evs' & Hadd' & Hall)].
    + exists (AssertionError 79). split; [exact E | reflexivity].
    + unfold added in Hadd, Hadd'. rewrite Hadd' in Hadd.
      apply app_inv_head in Hadd. subst evs'.
      rewrite Forall_forall in Hall. apply Hall in Hin.
      contradiction.
Qed.

Lemma set_video_format_order_witness :
  exists token wd ht,
    fst (to_bytes (FmtBytes "Y16 (1024x768)") (mk_st opened empty_world))
    = inr token
    /\ added empty_world
         (world (snd (set_video_format camera (FmtBytes "Y16 (1024x768)")
                        false (mk_st opened empty_world))))
         [IC_SetVideoFormat 7 token dll.success;
          IC_RemoveOverlay 7 0 dll.success;
          IC_SetFormat 7 Y16_mode dll.success;
          IC_StartLive 7 0 dll.success;
          IC_StopLive 7;
          IC_GetFormat 7 Y16_mode;
          IC_GetImageDescription 7 dll.success wd ht 16 4]
    /\ width (self (snd (set_video_format camera (FmtBytes "Y16 (1024x768)")
                           false (mk_st opened empty_world)))) = Some wd
    /\ height (self (snd (set_video_format camera (FmtBytes "Y16 (1024x768)")
                            false (mk_st opened empty_world)))) = Some ht
    /\ bit_depth (self (snd (set_video_format camera
                               (FmtBytes "Y16 (1024x768)")
                               false (mk_st opened empty_world)))) = Some 16.
Proof.
  apply (proj1 (@set_video_format_order camera (FmtBytes "Y16 (1024x768)")
                  false (mk_st opened empty_world)) VNone).
  vm_compute. reflexivity.
Defined.

(** C10.  A call of [set_video_format] that returns leaves the live
    flag false, and the device stopped, whether or not the session was
    live at entry: a live session has its stop-live call made right
    before the sink format is set, and the last start-live call is
    followed by a stop-live call. *)
Theorem set_video_format_leaves_stopped drv video_format verbose st v st' :
  set_video_format drv video_format verbose st = (inr v, st') ->
  live (self st') = false
  /\ streaming (handle (self st')) (trace (world st')) = false
  /\ (live (self st) = true ->
      exists before after,
        added (world st) (world st')
          (before
           ++ IC_StopLive (handle (self st))
           :: IC_SetFormat (handle (self st)) Y16_mode dll.success
           :: after))
  /\ (exists before after,
        added (world st) (world st')
          (before
           ++ IC_StartLive (handle (self st)) 0 dll.success
           :: IC_StopLive (handle (self st))
           :: after)
        /\ forall ev, In ev after -> streaming_after (handle (self st)) false ev
                                     = false).
Proof.
  intros H.
  apply set_video_format_ok in H
    as (token & wd & ht & _ & _ & _ & _ & Hself & Hadd).
  rewrite Hself. unfold added in *. rewrite Hadd. cbn [live handle set_bit_depth
    set_width_height set_live]. repeat split.
  - rewrite streaming_app.
    destruct (live (self st)); cbn; rewrite ?Z.eqb_refl; cbn; reflexivity.
  - intros ->.
    exists [IC_SetVideoFormat (handle (self st)) token dll.success;
            IC_RemoveOverlay (handle (self st)) 0 dll.success].
    eexists. cbn. reflexivity.
  - exists (IC_SetVideoFormat (handle (self st)) token dll.success
            :: IC_RemoveOverlay (handle (self st)) 0 dll.success
            :: (if live (self st)
                then [IC_StopLive (handle (self st))] else [])
            ++ [IC_SetFormat (handle (self st)) Y16_mode dll.success]).
    eexists. split.
    + cbn. rewrite <- app_assoc. cbn. reflexivity.
    + intros ev [<- | [<- | []]]; reflexivity.
Qed.

Lemma set_video_format_leaves_stopped_witness :
  live (self (snd (set_video_format camera (FmtBytes "Y16 (1024x768)") false
                     (mk_st (set_live true opened) empty_world)))) = false.
Proof.
  apply (@set_video_format_leaves_stopped camera (FmtBytes "Y16 (1024x768)")
           false (mk_st (set_live true opened) empty_world) VNone).
  vm_compute. reflexivity.
Defined.
